(** * ws-service: WhatsApp sender API (robust version)

    A shallow embedding of the number normalizer, the retry executor, the
    media resolver, the bulk dispatcher with its HTTP validation, and the
    connection lifecycle manager, followed by the properties the
    specification states about them.

    Conventions.
    - JavaScript strings are modelled by [string]; only ASCII digits and the
      ASCII separators [/] and [?] are ever inspected by the code, so the
      byte view and the UTF-16 view agree on every test made here.
    - Millisecond delays are [Z]; [500 * 2^attempt] is exact in both.
    - Asynchronous code is modelled by a state-and-exception monad over an
      abstract world [W] owned by the external collaborators
      (whatsapp-web.js, axios).  Every collaborator call leaves a ghost
      [EvCall] entry in the trace, next to the console lines and sleeps the
      code itself produces. *)

From Stdlib Require Import String Ascii List ZArith Lia Bool Arith.
From Stdlib Require Import DecimalString.
Import ListNotations.
Open Scope string_scope.
Open Scope nat_scope.

(* ------------------------------------------------------------------ *)
(** ** Strings *)

Module Str.

(** JavaScript truthiness of a string: non-empty. *)
Definition truthy (s : string) : bool :=
  match s with EmptyString => false | String _ _ => true end.

(** The class [\d]: the ten ASCII digits. *)
Definition isDigit (c : ascii) : bool :=
  (48 <=? nat_of_ascii c) && (nat_of_ascii c <=? 57).

(** [s.replace(/\D/g, '')] *)
Fixpoint stripNonDigits (s : string) : string :=
  match s with
  | EmptyString => EmptyString
  | String c r =>
      if isDigit c then String c (stripNonDigits r) else stripNonDigits r
  end.

(** [forall c in s, p c] as a boolean. *)
Fixpoint allChars (p : ascii -> bool) (s : string) : bool :=
  match s with
  | EmptyString => true
  | String c r => p c && allChars p r
  end.

(** [s.includes(needle)] *)
Fixpoint includes (needle s : string) : bool :=
  prefix needle s ||
  match s with
  | EmptyString => false
  | String _ r => includes needle r
  end.

(** [s.split(sep).pop()] for a one-character separator: the text after the
    last separator, the whole string when there is none.  [acc] is the
    segment being read. *)
Fixpoint lastSegmentFrom (sep : ascii) (acc s : string) : string :=
  match s with
  | EmptyString => acc
  | String c r =>
      if Ascii.eqb c sep then lastSegmentFrom sep EmptyString r
      else lastSegmentFrom sep (acc ++ String c EmptyString) r
  end.

Definition lastSegment (sep : ascii) (s : string) : string :=
  lastSegmentFrom sep EmptyString s.

(** [s.split(sep)[0]]: the text before the first separator. *)
Fixpoint firstSegment (sep : ascii) (s : string) : string :=
  match s with
  | EmptyString => EmptyString
  | String c r =>
      if Ascii.eqb c sep then EmptyString else String c (firstSegment sep r)
  end.

(** The text after the first separator, if there is one. *)
Fixpoint afterFirst (sep : ascii) (s : string) : option string :=
  match s with
  | EmptyString => None
  | String c r => if Ascii.eqb c sep then Some r else afterFirst sep r
  end.

(** Template-literal rendering of a non-negative integer. *)
Definition ofNat (n : nat) : string := NilZero.string_of_uint (Nat.to_uint n).
Definition ofZ (z : Z) : string := NilZero.string_of_int (Z.to_int z).

End Str.

(* ------------------------------------------------------------------ *)
(** ** Configuration *)

Definition MAX_RETRIES : nat := 3.
Definition RETRY_BASE_MS : Z := 500.
Definition FROM_URL_TIMEOUT_MS : Z := 20000.

(** [(process.env.DEFAULT_COUNTRY_CODE || '').replace(/\D/g, '')] *)
Definition countryCodeOfEnv (env : option string) : string :=
  Str.stripNonDigits
    (match env with
     | Some v => if Str.truthy v then v else ""
     | None => ""
     end).

Record Config := {
  DEFAULT_COUNTRY_CODE : string;
  hostname : string
}.

(* ------------------------------------------------------------------ *)
(** ** Number normalizer *)

(** [function normalizeNumber(raw)], with the module constant
    [DEFAULT_COUNTRY_CODE] passed as [cc]. *)
Definition normalizeNumber (cc raw : string) : option string :=
  if negb (Str.truthy raw) then None
  else
    let digits := Str.stripNonDigits raw in
    if negb (Str.truthy digits) then None
    else if 11 <=? String.length digits then Some digits
    else
      let digits :=
        if (8 <=? String.length digits) && (String.length digits <=? 10)
           && Str.truthy cc
        then cc ++ digits
        else digits in
      if 8 <=? String.length digits then Some digits else None.

(* ------------------------------------------------------------------ *)
(** ** Thrown values and results *)

(** What a [catch] clause can receive. *)
Inductive Thrown :=
| ErrorObj (name message : string)   (* an [Error]-like object *)
| ThrownStr (s : string)             (* a bare string *)
| ThrownUndefined.

(** [String(err && err.message || err)] *)
Definition errText (err : Thrown) : string :=
  match err with
  | ErrorObj name message => if Str.truthy message then message else name
  | ThrownStr s => s
  | ThrownUndefined => "undefined"
  end.

(** [new Error(message)] *)
Definition newError (message : string) : Thrown := ErrorObj "Error" message.

Inductive Res (A : Type) :=
| Ret (a : A)
| Throw (e : Thrown).
Arguments Ret {A} a.
Arguments Throw {A} e.

(* ------------------------------------------------------------------ *)
(** ** Data model *)

(** [MessageMedia]: [mimetype], base64 [data], optional [filename]. *)
Record MessageMedia := {
  mimetype : string;
  data : string;
  filename : option string
}.

(** What [client.sendMessage] is given as content. *)
Inductive Content :=
| MediaContent (m : MessageMedia) (caption : option string)
| TextContent (t : string).

(** The identity [client.getNumberId] resolves to. *)
Record NumberId := { _serialized : string }.

(** The part of an axios response the code reads. *)
Record AxiosResponse := {
  contentTypeHeader : option string;   (* [resp.headers['content-type']] *)
  respData : string                    (* [resp.data], the raw bytes *)
}.

Record AxiosConfig := {
  responseType : string;
  timeout : Z;
  maxContentLength : Z;
  userAgent : string
}.

Inductive Status := sent | sent_with_warning | failed.

(** One element of the [results] array. *)
Record ResultEntry := {
  number : string;
  status : Status;
  reason : option string;
  warning : option string
}.

(** The process-wide session variables. *)
Record Session := {
  clientReady : bool;
  clientState : string;
  reconnectTimer : option nat;   (* handle returned by [setInterval] *)
  lastQr : option string;
  lastQrAt : option Z;
  initializing : bool
}.

(** The body of [POST /send-whatsapp].  [numbers = None] stands for a
    [numbers] field that is absent or not an array. *)
Record Body := {
  numbers : option (list string);
  imageUrl : option string;
  caption : option string;
  text : option string
}.

(** [req.body || {}] *)
Definition bodyOrEmpty (b : option Body) : Body :=
  match b with
  | Some b => b
  | None => {| numbers := None; imageUrl := None; caption := None; text := None |}
  end.

(** Truthiness of an optional string field. *)
Definition present (o : option string) : bool :=
  match o with Some s => Str.truthy s | None => false end.

Inductive Payload :=
| ErrorBody (error : string) (detail : option string)
| SendBody (summary : string) (detail : list ResultEntry).

Record Response := { code : nat; payload : Payload }.

(* ------------------------------------------------------------------ *)
(** ** Effects *)

(** Calls made to the external collaborators. *)
Inductive Call :=
| CallFromUrl (url : string) (unsafeMime : bool) (timeoutMs : Z)
| CallAxiosGet (url : string) (cfg : AxiosConfig)
| CallGetNumberId (normalized : string)
| CallGetChatById (chatId : string)
| CallSendMessage (chatId : string) (c : Content).

Inductive Event :=
| EvLog (line : string)
| EvWarn (line : string)
| EvError (line : string)
| EvSleep (ms : Z)
| EvCall (c : Call).

(** The external collaborators, as transformers of their own world [W].
    [elapse] is what the world does while the code sleeps. *)
Class Collaborators (W : Type) := {
  elapse : Z -> W -> W;
  MessageMedia_fromUrl : string -> bool -> Z -> W -> Res MessageMedia * W;
  axios_get : string -> AxiosConfig -> W -> Res AxiosResponse * W;
  client_getNumberId : string -> W -> Res (option NumberId) * W;
  client_getChatById : string -> W -> Res unit * W;
  client_sendMessage : string -> Content -> W -> Res unit * W;
  toBase64 : string -> string   (* [Buffer.from(d).toString('base64')] *)
}.

(** What a request handler can touch: the collaborators' world, the session
    variables, the console and timers, and its own [results] array. *)
Record St (W : Type) := mkSt {
  world : W;
  session : Session;
  trace : list Event;
  results : list ResultEntry
}.
Arguments mkSt {W}.
Arguments world {W}.
Arguments session {W}.
Arguments trace {W}.
Arguments results {W}.

Definition M (W A : Type) : Type := St W -> Res A * St W.

Definition ret {W A} (a : A) : M W A := fun s => (Ret a, s).

Definition throw {W A} (e : Thrown) : M W A := fun s => (Throw e, s).

Definition bind {W A B} (m : M W A) (k : A -> M W B) : M W B :=
  fun s =>
    match m s with
    | (Ret a, s') => k a s'
    | (Throw e, s') => (Throw e, s')
    end.

(** [try { m } catch (err) { h err }]; writes made by [m] before it threw
    stay. *)
Definition tryCatch {W A} (m : M W A) (h : Thrown -> M W A) : M W A :=
  fun s =>
    match m s with
    | (Ret a, s') => (Ret a, s')
    | (Throw e, s') => h e s'
    end.

Declare Scope js_scope.
Delimit Scope js_scope with js.
Notation "x <- m ;; k" := (bind m (fun x => k))
  (at level 61, m at next level, right associativity) : js_scope.
Notation "m ;; k" := (bind m (fun _ => k))
  (at level 61, right associativity) : js_scope.
Open Scope js_scope.

Definition emit {W} (e : Event) : M W unit :=
  fun s => (Ret tt, mkSt (world s) (session s) (trace s ++ [e])%list (results s)).

Definition log {W} (line : string) : M W unit := emit (EvLog line).
Definition warn {W} (line : string) : M W unit := emit (EvWarn line).
Definition error {W} (line : string) : M W unit := emit (EvError line).

(** [await sleep(ms)] *)
Definition sleep {W} `{Collaborators W} (ms : Z) : M W unit :=
  fun s =>
    (Ret tt,
     mkSt (elapse ms (world s)) (session s) (trace s ++ [EvSleep ms])%list
          (results s)).

(** [await collaborator(...)], recorded in the trace. *)
Definition call {W A} (c : Call) (op : W -> Res A * W) : M W A :=
  fun s =>
    let (r, w) := op (world s) in
    (r, mkSt w (session s) (trace s ++ [EvCall c])%list (results s)).

(** [results.push(entry)] *)
Definition push {W} (entry : ResultEntry) : M W unit :=
  fun s =>
    (Ret tt, mkSt (world s) (session s) (trace s) (results s ++ [entry])%list).

(** [const results = []] *)
Definition newResults {W} : M W unit :=
  fun s => (Ret tt, mkSt (world s) (session s) (trace s) []).

Definition getResults {W} : M W (list ResultEntry) :=
  fun s => (Ret (results s), s).

Definition getClientReady {W} : M W bool :=
  fun s => (Ret (clientReady (session s)), s).

(* ------------------------------------------------------------------ *)
(** ** Retry executor *)

(** [function backoffDelay(attempt)] *)
Definition backoffDelay (attempt : nat) : Z :=
  (RETRY_BASE_MS * 2 ^ Z.of_nat attempt)%Z.

(** The line [withRetries] prints for a failed attempt. *)
Definition retryWarning (label : string) (attempt : nat) (err : Thrown) : string :=
  "Fallo en " ++ label ++ " (intento " ++ Str.ofNat (attempt + 1) ++ "/"
  ++ Str.ofNat MAX_RETRIES ++ "): " ++ errText err ++ ". Reintentando en "
  ++ Str.ofZ (backoffDelay attempt) ++ "ms...".

(** The [catch] block of [withRetries]. *)
Definition afterFailure {W} `{Collaborators W}
    (label : string) (attempt : nat) (err : Thrown) : M W unit :=
  warn (retryWarning label attempt err) ;;
  sleep (backoffDelay attempt).

(** The [for] loop of [withRetries], entered at [attempt] with
    [remaining = MAX_RETRIES - attempt] iterations to go and [lastErr] as
    assigned so far. *)
Fixpoint retryLoop {W A} `{Collaborators W} (fn : M W A) (label : string)
    (remaining attempt : nat) (lastErr : Thrown) : M W A :=
  match remaining with
  | 0 => throw lastErr
  | S remaining' =>
      tryCatch fn (fun err =>
        afterFailure label attempt err ;;
        retryLoop fn label remaining' (S attempt) err)
  end.

(** [async function withRetries(fn, label = 'op')]; every caller in the
    file passes its label. *)
Definition withRetries {W A} `{Collaborators W} (fn : M W A) (label : string)
    : M W A :=
  retryLoop fn label MAX_RETRIES 0 ThrownUndefined.

(* ------------------------------------------------------------------ *)
(** ** Media resolver *)

(** [imageUrl.split('/').pop().split('?')[0] || 'image'] *)
Definition filenameOfUrl (imageUrl : string) : string :=
  let seg := Str.firstSegment "?" (Str.lastSegment "/" imageUrl) in
  if Str.truthy seg then seg else "image".

(** [resp.headers['content-type'] || 'image/jpeg'] *)
Definition contentTypeOf (resp : AxiosResponse) : string :=
  match contentTypeHeader resp with
  | Some ct => if Str.truthy ct then ct else "image/jpeg"
  | None => "image/jpeg"
  end.

Definition axiosConfig (cfg : Config) : AxiosConfig :=
  {| responseType := "arraybuffer";
     timeout := FROM_URL_TIMEOUT_MS;
     maxContentLength := 25 * 1024 * 1024;
     userAgent := "whatsapp-sender/" ++ hostname cfg |}.

(** The second [try] block of [buildMediaFromUrl]. *)
Definition manualDownload {W} `{Collaborators W} (cfg : Config)
    (imageUrl : string) : M W MessageMedia :=
  tryCatch
    (resp <- call (CallAxiosGet imageUrl (axiosConfig cfg))
                  (axios_get imageUrl (axiosConfig cfg)) ;;
     ret {| mimetype := contentTypeOf resp;
            data := toBase64 (respData resp);
            filename := Some (filenameOfUrl imageUrl) |})
    (fun err =>
       throw (newError ("No se pudo descargar la imagen: " ++ errText err))).

(** [async function buildMediaFromUrl(imageUrl)] *)
Definition buildMediaFromUrl {W} `{Collaborators W} (cfg : Config)
    (imageUrl : string) : M W MessageMedia :=
  tryCatch
    (call (CallFromUrl imageUrl true FROM_URL_TIMEOUT_MS)
          (MessageMedia_fromUrl imageUrl true FROM_URL_TIMEOUT_MS))
    (fun err =>
       warn ("fromUrl falló, usando fallback manual: " ++ errText err) ;;
       manualDownload cfg imageUrl).

(* ------------------------------------------------------------------ *)
(** ** Bulk dispatcher *)

Definition failedEntry (n why : string) : ResultEntry :=
  {| number := n; status := failed; reason := Some why; warning := None |}.

Definition sentEntry (n : string) : ResultEntry :=
  {| number := n; status := sent; reason := None; warning := None |}.

Definition warningEntry (n : string) : ResultEntry :=
  {| number := n; status := sent_with_warning; reason := None;
     warning := Some "Bug de serialización en wwebjs" |}.

(** The [if (media) ... else if (text) ...] of the inner [try]. *)
Definition sendContent {W} `{Collaborators W} (media : option MessageMedia)
    (caption text : option string) (chatId : string) : M W unit :=
  match media with
  | Some m =>
      withRetries
        (call (CallSendMessage chatId (MediaContent m caption))
              (client_sendMessage chatId (MediaContent m caption)))
        "sendMessage(media)"
  | None =>
      match text with
      | Some t =>
          if Str.truthy t then
            withRetries
              (call (CallSendMessage chatId (TextContent t))
                    (client_sendMessage chatId (TextContent t)))
              "sendMessage(text)"
          else ret tt
      | None => ret tt
      end
  end.

(** The [catch] of the inner [try]: classification of a send error. *)
Definition onSendError {W} (normalized : string) (err : Thrown) : M W unit :=
  let msg := errText err in
  if Str.includes "getMessageModel" msg || Str.includes "serialize" msg then
    warn ("⚠️ Enviado a " ++ normalized
          ++ ", pero con warning de serialize (bug wwebjs)") ;;
    push (warningEntry normalized)
  else
    error ("❌ Error al enviar a " ++ normalized ++ ": " ++ msg) ;;
    push (failedEntry normalized msg).

(** The outer [try] block of one loop iteration, from the lookup on. *)
Definition lookupAndSend {W} `{Collaborators W} (media : option MessageMedia)
    (caption text : option string) (normalized : string) : M W unit :=
  numberId <- withRetries
                (call (CallGetNumberId normalized)
                      (client_getNumberId normalized))
                "getNumberId" ;;
  match numberId with
  | None =>
      (* continue *)
      push (failedEntry normalized "El número no tiene WhatsApp")
  | Some id =>
      let chatId := _serialized id in
      tryCatch (call (CallGetChatById chatId) (client_getChatById chatId))
               (fun _ => ret tt) ;;
      tryCatch
        (sendContent media caption text chatId ;;
         log ("✅ Enviado a: " ++ normalized) ;;
         push (sentEntry normalized))
        (onSendError normalized) ;;
      sleep 150
  end.

(** The body of [for (const raw of numbers)]. *)
Definition processRecipient {W} `{Collaborators W} (cfg : Config)
    (media : option MessageMedia) (caption text : option string)
    (raw : string) : M W unit :=
  match normalizeNumber (DEFAULT_COUNTRY_CODE cfg) raw with
  | None => push (failedEntry raw "Número inválido")   (* continue *)
  | Some normalized =>
      tryCatch
        (lookupAndSend media caption text normalized)
        (fun err =>
           let msg := errText err in
           error ("❌ Error previo a enviar a " ++ normalized ++ ": " ++ msg) ;;
           push (failedEntry normalized msg))
  end.

(** [for (const raw of numbers) { ... }] *)
Fixpoint dispatchLoop {W} `{Collaborators W} (cfg : Config)
    (media : option MessageMedia) (caption text : option string)
    (recipients : list string) : M W unit :=
  match recipients with
  | [] => ret tt
  | raw :: rest =>
      processRecipient cfg media caption text raw ;;
      dispatchLoop cfg media caption text rest
  end.

(* ------------------------------------------------------------------ *)
(** ** API surface: [POST /send-whatsapp] *)

Definition isDelivered (r : ResultEntry) : bool :=
  match status r with sent | sent_with_warning => true | failed => false end.

Definition isFailed (r : ResultEntry) : bool :=
  match status r with failed => true | _ => false end.

(** [res.status(c).json({ error, detail })] *)
Definition errorResponse (c : nat) (msg : string) (detail : option string)
    : Response :=
  {| code := c; payload := ErrorBody msg detail |}.

(** The final [res.json({ status, detail: results })]. *)
Definition summaryResponse (rs : list ResultEntry) : Response :=
  {| code := 200;
     payload :=
       SendBody ("Mensajes enviados: "
                 ++ Str.ofNat (List.length (filter isDelivered rs))
                 ++ ", fallidos: "
                 ++ Str.ofNat (List.length (filter isFailed rs)))
                rs |}.

(** The handler from [const results = []] on, with [media] resolved. *)
Definition dispatchAndReport {W} `{Collaborators W} (cfg : Config)
    (media : option MessageMedia) (caption text : option string)
    (recipients : list string) : M W Response :=
  newResults ;;
  dispatchLoop cfg media caption text recipients ;;
  rs <- getResults ;;
  ret (summaryResponse rs).

(** The media step: [let media = null; if (imageUrl) { try ... catch ... }].
    [inl] is the early [return res.status(400)...]. *)
Definition resolveMedia {W} `{Collaborators W} (cfg : Config)
    (imageUrl : option string) : M W (Response + option MessageMedia) :=
  match imageUrl with
  | Some url =>
      if Str.truthy url then
        tryCatch
          (m <- withRetries (buildMediaFromUrl cfg url) "buildMediaFromUrl" ;;
           ret (inr (Some m)))
          (fun err =>
             ret (inl (errorResponse 400 "No se pudo preparar la imagen"
                                     (Some (errText err)))))
      else ret (inr None)
  | None => ret (inr None)
  end.

(** [app.post('/send-whatsapp', async (req, res) => ...)] *)
Definition postSendWhatsapp {W} `{Collaborators W} (cfg : Config)
    (reqBody : option Body) : M W Response :=
  let b := bodyOrEmpty reqBody in
  match numbers b with
  | None | Some [] => ret (errorResponse 400 "Faltan parámetros: numbers[]" None)
  | Some recipients =>
      ready <- getClientReady ;;
      if negb ready then
        ret (errorResponse 503 "El cliente de WhatsApp aún no está listo." None)
      else if negb (present (imageUrl b)) && negb (present (text b)) then
        ret (errorResponse 400 "Debes enviar imageUrl o text." None)
      else
        r <- resolveMedia cfg (imageUrl b) ;;
        match r with
        | inl early => ret early
        | inr media =>
            dispatchAndReport cfg media (caption b) (text b) recipients
        end
  end.

(* ------------------------------------------------------------------ *)
(** ** Connection lifecycle manager

    Node runs each callback to completion, so the session variables change
    only in the atomic segments below: the synchronous prefix of
    [initClient], [scheduleReconnect], the client's event handlers, a firing
    of the supervisor interval up to its [await sleep], its resumption, and
    the settling of a [client.initialize()] promise.  Ghost fields count what
    the code started and has not yet seen concluded. *)

Module Lifecycle.

Record Machine := {
  vars : Session;
  retries : nat;        (* [let retries] closed over by the armed interval *)
  console : list Event;
  armed : list nat;     (* ghost: intervals set and not cleared *)
  nextHandle : nat;     (* ghost: the handle the next [setInterval] returns *)
  inFlight : nat;       (* ghost: [client.initialize()] calls begun and not
                           concluded by ready / auth_failure / disconnected
                           or by a rejection *)
  sleeping : nat        (* ghost: supervisor firings inside [await sleep] *)
}.

Definition initialVars : Session :=
  {| clientReady := false; clientState := "INIT"; reconnectTimer := None;
     lastQr := None; lastQrAt := None; initializing := false |}.

Definition setReady (b : bool) (v : Session) : Session :=
  {| clientReady := b; clientState := clientState v;
     reconnectTimer := reconnectTimer v; lastQr := lastQr v;
     lastQrAt := lastQrAt v; initializing := initializing v |}.

Definition setInitializing (b : bool) (v : Session) : Session :=
  {| clientReady := clientReady v; clientState := clientState v;
     reconnectTimer := reconnectTimer v; lastQr := lastQr v;
     lastQrAt := lastQrAt v; initializing := b |}.

Definition setTimer (t : option nat) (v : Session) : Session :=
  {| clientReady := clientReady v; clientState := clientState v;
     reconnectTimer := t; lastQr := lastQr v;
     lastQrAt := lastQrAt v; initializing := initializing v |}.

Definition setState (st : string) (v : Session) : Session :=
  {| clientReady := clientReady v; clientState := st;
     reconnectTimer := reconnectTimer v; lastQr := lastQr v;
     lastQrAt := lastQrAt v; initializing := initializing v |}.

Definition setQr (qr : string) (now : Z) (v : Session) : Session :=
  {| clientReady := clientReady v; clientState := clientState v;
     reconnectTimer := reconnectTimer v; lastQr := Some qr;
     lastQrAt := Some now; initializing := initializing v |}.

Definition withVars (f : Session -> Session) (m : Machine) : Machine :=
  {| vars := f (vars m); retries := retries m; console := console m;
     armed := armed m; nextHandle := nextHandle m; inFlight := inFlight m;
     sleeping := sleeping m |}.

Definition say (e : Event) (m : Machine) : Machine :=
  {| vars := vars m; retries := retries m; console := (console m ++ [e])%list;
     armed := armed m; nextHandle := nextHandle m; inFlight := inFlight m;
     sleeping := sleeping m |}.

(** Ghost: one more initialization begun / one concluded. *)
Definition began (m : Machine) : Machine :=
  {| vars := vars m; retries := retries m; console := console m;
     armed := armed m; nextHandle := nextHandle m; inFlight := S (inFlight m);
     sleeping := sleeping m |}.

Definition concluded (m : Machine) : Machine :=
  {| vars := vars m; retries := retries m; console := console m;
     armed := armed m; nextHandle := nextHandle m;
     inFlight := Nat.pred (inFlight m); sleeping := sleeping m |}.

(** [async function initClient()], up to [await client.initialize()]. *)
Definition initClient (m : Machine) : Machine :=
  if initializing (vars m) then m
  else
    began (say (EvLog "Inicializando cliente de WhatsApp...")
               (withVars (setInitializing true) m)).

(** [reconnectTimer = setInterval(..., 35_000)] with a fresh [retries]. *)
Definition setInterval (m : Machine) : Machine :=
  {| vars := setTimer (Some (nextHandle m)) (vars m); retries := 0;
     console := console m; armed := nextHandle m :: armed m;
     nextHandle := S (nextHandle m); inFlight := inFlight m;
     sleeping := sleeping m |}.

(** [clearInterval(h)] *)
Definition clearInterval (h : nat) (m : Machine) : Machine :=
  {| vars := vars m; retries := retries m; console := console m;
     armed := filter (fun k => negb (Nat.eqb k h)) (armed m);
     nextHandle := nextHandle m; inFlight := inFlight m;
     sleeping := sleeping m |}.

(** [async function scheduleReconnect()] *)
Definition scheduleReconnect (m : Machine) : Machine :=
  match reconnectTimer (vars m) with
  | Some _ => m
  | None => setInterval m
  end.

(** The delay a supervisor firing sleeps for. *)
Definition reconnectDelay (r : nat) : Z := Z.min 30000 (backoffDelay r).

(** The interval callback up to [await sleep(delay)]. *)
Definition tick (h : nat) (m : Machine) : Machine :=
  if negb (existsb (Nat.eqb h) (armed m)) then m
  else if clientReady (vars m) || initializing (vars m) then m
  else
    let r := S (retries m) in
    say (EvSleep (reconnectDelay r))
      (say (EvWarn ("Intentando reconectar (reintento #" ++ Str.ofNat r
                    ++ ") en " ++ Str.ofZ (reconnectDelay r) ++ "ms..."))
        {| vars := vars m; retries := r; console := console m;
           armed := armed m; nextHandle := nextHandle m;
           inFlight := inFlight m; sleeping := S (sleeping m) |}).

(** The interval callback after its sleep: [await initClient()]. *)
Definition wake (m : Machine) : Machine :=
  match sleeping m with
  | 0 => m
  | S k =>
      initClient
        {| vars := vars m; retries := retries m; console := console m;
           armed := armed m; nextHandle := nextHandle m;
           inFlight := inFlight m; sleeping := k |}
  end.

(** [client.on('ready', ...)] *)
Definition onReady (m : Machine) : Machine :=
  let m1 := withVars (fun v => setInitializing false (setReady true v)) m in
  let m2 :=
    match reconnectTimer (vars m1) with
    | Some h => withVars (setTimer None) (clearInterval h m1)
    | None => m1
    end in
  concluded (say (EvLog "✅ Cliente de WhatsApp conectado y listo") m2).

(** [client.on('auth_failure', ...)] *)
Definition onAuthFailure (msg : string) (m : Machine) : Machine :=
  scheduleReconnect
    (concluded
       (say (EvError ("❌ Falla de autenticación: " ++ msg))
            (withVars (fun v => setInitializing false (setReady false v)) m))).

(** [client.on('disconnected', ...)] *)
Definition onDisconnected (why : string) (m : Machine) : Machine :=
  scheduleReconnect
    (concluded
       (say (EvError ("⚠️ Cliente desconectado: " ++ why))
            (withVars (fun v => setInitializing false (setReady false v)) m))).

(** [client.on('qr', ...)] and [client.on('change_state', ...)] *)
Definition onQr (qr : string) (now : Z) (m : Machine) : Machine :=
  say (EvLog "Escanea este código QR para conectar WhatsApp (se muestra en consola):")
      (withVars (setQr qr now) m).

Definition onChangeState (st : option string) (m : Machine) : Machine :=
  let st' := match st with
             | Some s => if Str.truthy s then s else "UNKNOWN"
             | None => "UNKNOWN"
             end in
  say (EvLog ("Estado de WhatsApp: " ++ st')) (withVars (setState st') m).

(** A [client.initialize()] promise rejects: at start-up the [.catch] lowers
    the flag and arms the supervisor; inside the supervisor the [catch] only
    warns. *)
Definition onInitRejected (atStartup : bool) (err : Thrown) (m : Machine)
    : Machine :=
  if atStartup then
    scheduleReconnect
      (say (EvError ("Fallo al inicializar el cliente: " ++ errText err))
           (withVars (setInitializing false) (concluded m)))
  else
    say (EvWarn ("Reintento de init falló: " ++ errText err)) (concluded m).

Inductive Step :=
| CallInitClient
| CallScheduleReconnect
| Fire (h : nat)
| Wake
| Ready
| AuthFailure (msg : string)
| Disconnected (why : string)
| Qr (qr : string) (now : Z)
| ChangeState (st : option string)
| InitRejected (atStartup : bool) (err : Thrown).

Definition step (m : Machine) (s : Step) : Machine :=
  match s with
  | CallInitClient => initClient m
  | CallScheduleReconnect => scheduleReconnect m
  | Fire h => tick h m
  | Wake => wake m
  | Ready => onReady m
  | AuthFailure msg => onAuthFailure msg m
  | Disconnected why => onDisconnected why m
  | Qr qr now => onQr qr now m
  | ChangeState st => onChangeState st m
  | InitRejected b err => onInitRejected b err m
  end.

(** Module load: the variables as declared, then [initClient()]. *)
Definition boot : Machine :=
  initClient
    {| vars := initialVars; retries := 0; console := []; armed := [];
       nextHandle := 0; inFlight := 0; sleeping := 0 |}.

Definition run (steps : list Step) : Machine := fold_left step steps boot.

(** The relation between the code's variables and the ghost counters. *)
Definition consistent (m : Machine) : Prop :=
  inFlight m <= (if initializing (vars m) then 1 else 0) /\
  armed m = match reconnectTimer (vars m) with Some h => [h] | None => [] end.

End Lifecycle.

(* ------------------------------------------------------------------ *)
(** ** Vocabulary of the properties *)

(** The delays found in a trace, in order. *)
Fixpoint sleepsOf (tr : list Event) : list Z :=
  match tr with
  | [] => []
  | EvSleep ms :: rest => ms :: sleepsOf rest
  | _ :: rest => sleepsOf rest
  end.

(** The collaborator calls found in a trace, in order. *)
Fixpoint callsOf (tr : list Event) : list Call :=
  match tr with
  | [] => []
  | EvCall c :: rest => c :: callsOf rest
  | _ :: rest => callsOf rest
  end.

(** An operation that does not sleep by itself. *)
Definition neverSleeps {W A} (fn : M W A) : Prop :=
  forall s, sleepsOf (trace (snd (fn s))) = sleepsOf (trace s).

(** [fn] throws [errs] on [length errs] consecutive invocations, the first
    of them made in state [s] as attempt number [attempt], each followed by
    the [catch] block of [withRetries]; [s'] is the state after the last
    [catch] block. *)
Fixpoint failsInARow {W A} `{Collaborators W} (fn : M W A) (label : string)
    (attempt : nat) (s : St W) (errs : list Thrown) (s' : St W) : Prop :=
  match errs with
  | [] => s' = s
  | e :: errs' =>
      exists t,
        fn s = (Throw e, t) /\
        failsInARow fn label (S attempt)
                    (snd (afterFailure label attempt e t)) errs' s'
  end.

(** [m] takes every state to one related to it by [R], whether it returns
    or throws. *)
Definition respects {W A} (R : St W -> St W -> Prop) (m : M W A) : Prop :=
  forall s, R s (snd (m s)).

(** The [results] array is as it was. *)
Definition keptResults {W} (s s' : St W) : Prop := results s' = results s.

(** The trace was only appended to, and the calls appended satisfy [Q]. *)
Definition grewBy {W} (Q : Call -> Prop) (s s' : St W) : Prop :=
  exists d, trace s' = (trace s ++ d)%list /\ Forall Q (callsOf d).

(** The calls a computation may make. *)
Definition callsOnly {W A} (Q : Call -> Prop) (m : M W A) : Prop :=
  respects (grewBy Q) m.

Definition isMediaCall (c : Call) : Prop :=
  match c with
  | CallFromUrl _ _ _ | CallAxiosGet _ _ => True
  | _ => False
  end.

Definition isRecipientCall (c : Call) : Prop :=
  match c with
  | CallGetNumberId _ | CallGetChatById _ | CallSendMessage _ _ => True
  | _ => False
  end.

(** A recipient call that, when it is a send, carries exactly [content]. *)
Definition sendsOnly (content : Content) (c : Call) : Prop :=
  match c with
  | CallSendMessage _ c' => c' = content
  | CallGetNumberId _ | CallGetChatById _ => True
  | _ => False
  end.

(** A recipient call that is not a send. *)
Definition sendsNothing (c : Call) : Prop :=
  match c with
  | CallGetNumberId _ | CallGetChatById _ => True
  | _ => False
  end.

(** The entry that answers the raw recipient [raw]: the raw string marked
    invalid when it does not normalize, its normalized form otherwise. *)
Definition answers (cfg : Config) (raw : string) (r : ResultEntry) : Prop :=
  match normalizeNumber (DEFAULT_COUNTRY_CODE cfg) raw with
  | None => r = failedEntry raw "Número inválido"
  | Some n => number r = n
  end.

(** The identity lookup of the dispatcher, as run for [normalized]. *)
Definition lookup {W} `{Collaborators W} (normalized : string)
    : M W (option NumberId) :=
  withRetries (call (CallGetNumberId normalized) (client_getNumberId normalized))
              "getNumberId".

(** The best-effort pre-warm of the chat. *)
Definition prewarm {W} `{Collaborators W} (chatId : string) : M W unit :=
  tryCatch (call (CallGetChatById chatId) (client_getChatById chatId))
           (fun _ => ret tt).

(** The known serialization-defect markers. *)
Definition isKnownSerializationDefect (msg : string) : bool :=
  Str.includes "getMessageModel" msg || Str.includes "serialize" msg.

(** Follows the specification's words (4.5, steps 1 to 4): the outcome
    recorded for one recipient, read off the outcomes of normalization, of
    the retried lookup, and of the retried send made after the pre-warm. *)
Definition recordedOutcome {W} `{Collaborators W} (cfg : Config)
    (media : option MessageMedia) (caption text : option string)
    (raw : string) (s : St W) : ResultEntry :=
  match normalizeNumber (DEFAULT_COUNTRY_CODE cfg) raw with
  | None => failedEntry raw "Número inválido"
  | Some n =>
      match lookup n s with
      | (Throw err, _) => failedEntry n (errText err)
      | (Ret None, _) => failedEntry n "El número no tiene WhatsApp"
      | (Ret (Some id), s1) =>
          match sendContent media caption text (_serialized id)
                            (snd (prewarm (_serialized id) s1)) with
          | (Ret _, _) => sentEntry n
          | (Throw err, _) =>
              if isKnownSerializationDefect (errText err)
              then warningEntry n
              else failedEntry n (errText err)
          end
      end
  end.

(** Follows the specification's words ("annotated with the operation's
    label"): the propagated error mentions the label. *)
Definition annotatedWith (label : string) (e : Thrown) : bool :=
  Str.includes label (errText e).

(** Follows the specification's words ("the URL's final path segment"): the
    last [/]-separated segment of what precedes the query. *)
Definition finalPathSegment (url : string) : string :=
  Str.lastSegment "/" (Str.firstSegment "?" url).

(** No [/] occurs after the first [?]. *)
Definition queryHasNoSlash (url : string) : bool :=
  match Str.afterFirst "?" url with
  | Some q => Str.allChars (fun c => negb (Ascii.eqb c "/")) q
  | None => true
  end.


(* ------------------------------------------------------------------ *)
(** ** A scripted backend

    Collaborators that answer from queues, one answer per call, and a clock
    advanced by sleeping.  Used to run the handler on concrete requests. *)

Module Scripted.

Record World := {
  fromUrlQ : list (Res MessageMedia);
  axiosQ : list (Res AxiosResponse);
  lookupQ : list (Res (option NumberId));
  chatQ : list (Res unit);
  sendQ : list (Res unit);
  clock : Z
}.

Definition exhausted {A} : Res A := Throw (newError "script exhausted").

Definition popFromUrl (w : World) : Res MessageMedia * World :=
  match fromUrlQ w with
  | [] => (exhausted, w)
  | r :: q => (r, {| fromUrlQ := q; axiosQ := axiosQ w; lookupQ := lookupQ w;
                     chatQ := chatQ w; sendQ := sendQ w; clock := clock w |})
  end.

Definition popAxios (w : World) : Res AxiosResponse * World :=
  match axiosQ w with
  | [] => (exhausted, w)
  | r :: q => (r, {| fromUrlQ := fromUrlQ w; axiosQ := q; lookupQ := lookupQ w;
                     chatQ := chatQ w; sendQ := sendQ w; clock := clock w |})
  end.

Definition popLookup (w : World) : Res (option NumberId) * World :=
  match lookupQ w with
  | [] => (exhausted, w)
  | r :: q => (r, {| fromUrlQ := fromUrlQ w; axiosQ := axiosQ w; lookupQ := q;
                     chatQ := chatQ w; sendQ := sendQ w; clock := clock w |})
  end.

Definition popChat (w : World) : Res unit * World :=
  match chatQ w with
  | [] => (exhausted, w)
  | r :: q => (r, {| fromUrlQ := fromUrlQ w; axiosQ := axiosQ w;
                     lookupQ := lookupQ w; chatQ := q; sendQ := sendQ w;
                     clock := clock w |})
  end.

Definition popSend (w : World) : Res unit * World :=
  match sendQ w with
  | [] => (exhausted, w)
  | r :: q => (r, {| fromUrlQ := fromUrlQ w; axiosQ := axiosQ w;
                     lookupQ := lookupQ w; chatQ := chatQ w; sendQ := q;
                     clock := clock w |})
  end.

Definition tickClock (ms : Z) (w : World) : World :=
  {| fromUrlQ := fromUrlQ w; axiosQ := axiosQ w; lookupQ := lookupQ w;
     chatQ := chatQ w; sendQ := sendQ w; clock := (clock w + ms)%Z |}.

#[global] Instance backend : Collaborators World := {
  elapse := tickClock;
  MessageMedia_fromUrl := fun _ _ _ => popFromUrl;
  axios_get := fun _ _ => popAxios;
  client_getNumberId := fun _ => popLookup;
  client_getChatById := fun _ => popChat;
  client_sendMessage := fun _ _ => popSend;
  toBase64 := fun d => d
}.

Definition idle : World :=
  {| fromUrlQ := []; axiosQ := []; lookupQ := []; chatQ := []; sendQ := [];
     clock := 0 |}.

Definition lookups (q : list (Res (option NumberId))) : World :=
  {| fromUrlQ := []; axiosQ := []; lookupQ := q; chatQ := []; sendQ := [];
     clock := 0 |}.

Definition script (fromUrls : list (Res MessageMedia))
    (downloads : list (Res AxiosResponse))
    (accounts : list (Res (option NumberId))) (chats sends : list (Res unit))
    : World :=
  {| fromUrlQ := fromUrls; axiosQ := downloads; lookupQ := accounts;
     chatQ := chats; sendQ := sends; clock := 0 |}.

(** A fresh handler state over [w], with the session ready or not. *)
Definition start (ready : bool) (w : World) : St World :=
  mkSt w (Lifecycle.setReady ready Lifecycle.initialVars) [] [].

Definition cfg57 : Config := {| DEFAULT_COUNTRY_CODE := "57"; hostname := "h" |}.

Definition account (n : string) : Res (option NumberId) :=
  Ret (Some {| _serialized := n ++ "@c.us" |}).

Definition boom : Thrown := newError "boom".

End Scripted.

(* ------------------------------------------------------------------ *)
(** ** The rest of the service *)

(** [function normalizeNumber(raw)] of the earlier versions (index.js):
    digits only, no default prefix. *)
Definition normalizeNumberV1 (raw : string) : option string :=
  if negb (Str.truthy raw) then None
  else
    let digits := Str.stripNonDigits raw in
    if 8 <=? String.length digits then Some digits else None.

(** The answers of [GET /qr]. *)
Inductive QrReply :=
| QrMissing (message : string)
| QrIssued (qr : string) (issuedAt : option string).

(** [app.get('/qr', ...)]; [toISOString] is [Date.prototype.toISOString]. *)
Definition getQr (toISOString : Z -> string) (v : Session) : nat * QrReply :=
  match lastQr v with
  | Some q =>
      if Str.truthy q
      then (200, QrIssued q (option_map toISOString (lastQrAt v)))
      else (404, QrMissing "No hay QR disponible por ahora.")
  | None => (404, QrMissing "No hay QR disponible por ahora.")
  end.

(** The answer of [GET /status]. *)
Record StatusReply := {
  statusReady : bool;
  statusState : string;
  statusLastQrAt : option string;
  statusHost : string
}.

(** [app.get('/status', ...)] *)
Definition getStatus (toISOString : Z -> string) (cfg : Config) (v : Session)
    : nat * StatusReply :=
  (200, {| statusReady := clientReady v;
           statusState := clientState v;
           statusLastQrAt := option_map toISOString (lastQrAt v);
           statusHost := hostname cfg |}).

(** The trace was only appended to, by at most [n] collaborator calls. *)
Definition callsWithin {W} (n : nat) (s s' : St W) : Prop :=
  exists d, trace s' = (trace s ++ d)%list /\ List.length (callsOf d) <= n.

Definition atMostCalls {W A} (n : nat) (m : M W A) : Prop :=
  forall s, callsWithin n s (snd (m s)).

(** The world and the trace are as they were. *)
Definition untouched {W} (s s' : St W) : Prop :=
  world s' = world s /\ trace s' = trace s.

Module Supervision.

(** The line [initClient] prints when it passes its guard, just before it
    calls [client.initialize()]. *)
Definition isInitLine (e : Event) : bool :=
  match e with
  | EvLog line => String.eqb line "Inicializando cliente de WhatsApp..."
  | _ => false
  end.

(** How many times [client.initialize()] has been called. *)
Definition initializations (m : Lifecycle.Machine) : nat :=
  List.length (filter isInitLine (Lifecycle.console m)).

(** The segments in which the code assigns [initializing = false]. *)
Definition lowersFlag (s : Lifecycle.Step) : bool :=
  match s with
  | Lifecycle.Ready | Lifecycle.AuthFailure _ | Lifecycle.Disconnected _
  | Lifecycle.InitRejected true _ => true
  | _ => false
  end.

End Supervision.

(* ================================================================== *)
(** * Properties *)

(* ------------------------------------------------------------------ *)
(** ** Strings *)

Lemma truthy_length (s : string) :
  Str.truthy s = negb (String.length s =? 0).
Proof. destruct s; reflexivity. Qed.

Lemma truthy_nonempty (s : string) : s <> "" -> Str.truthy s = true.
Proof. destruct s; [congruence | reflexivity]. Qed.

Lemma length_append (a b : string) :
  String.length (a ++ b) = String.length a + String.length b.
Proof. induction a as [|c a IH]; simpl; [reflexivity | now rewrite IH]. Qed.

Lemma append_assoc (a b c : string) : (a ++ b) ++ c = a ++ (b ++ c).
Proof. induction a as [|x a IH]; simpl; [reflexivity | now rewrite IH]. Qed.

Lemma stripNonDigits_length (s : string) :
  String.length (Str.stripNonDigits s) <= String.length s.
Proof.
  induction s as [|c s IH]; simpl; [lia|].
  destruct (Str.isDigit c); simpl; lia.
Qed.

Lemma stripNonDigits_digits (s : string) :
  Str.allChars Str.isDigit (Str.stripNonDigits s) = true.
Proof.
  induction s as [|c s IH]; simpl; [reflexivity|].
  destruct (Str.isDigit c) eqn:E; simpl; [now rewrite E|assumption].
Qed.

Lemma stripNonDigits_fixes_digits (s : string) :
  Str.allChars Str.isDigit s = true -> Str.stripNonDigits s = s.
Proof.
  induction s as [|c s IH]; simpl; [reflexivity|].
  intros H. apply andb_true_iff in H as [Hc Hs].
  rewrite Hc. now rewrite IH.
Qed.

Lemma prefix_append (a b : string) : prefix a (a ++ b) = true.
Proof.
  induction a as [|c a IH]; simpl; [now destruct b|].
  destruct (ascii_dec c c); [assumption | congruence].
Qed.

Lemma includes_prefix (needle s : string) :
  prefix needle s = true -> Str.includes needle s = true.
Proof. intros H. destruct s; cbn [Str.includes]; now rewrite H. Qed.

Lemma includes_append (needle a b : string) :
  Str.includes needle (a ++ needle ++ b) = true.
Proof.
  induction a as [|c a IH].
  - change ("" ++ needle ++ b) with (needle ++ b).
    apply includes_prefix, prefix_append.
  - cbn [append Str.includes]. rewrite IH. apply orb_true_r.
Qed.

(* ------------------------------------------------------------------ *)
(** ** Number normalizer *)

Lemma normalizeNumber_digits (cc raw : string) :
  Str.stripNonDigits raw <> "" ->
  normalizeNumber cc raw =
    let d := Str.stripNonDigits raw in
    if 11 <=? String.length d then Some d
    else if (8 <=? String.length d) && Str.truthy cc then Some (cc ++ d)
    else if 8 <=? String.length d then Some d
    else None.
Proof.
  intros Hd. unfold normalizeNumber.
  destruct raw as [|c raw]; [now elim Hd|].
  cbn [Str.truthy negb].
  rewrite (truthy_nonempty _ Hd). cbn [negb].
  set (d := Str.stripNonDigits (String c raw)). cbv zeta.
  destruct (11 <=? String.length d) eqn:E11; [reflexivity|].
  apply Nat.leb_gt in E11.
  destruct (8 <=? String.length d) eqn:E8; cbn [andb].
  - apply Nat.leb_le in E8.
    replace (String.length d <=? 10) with true
      by (symmetry; apply Nat.leb_le; lia).
    cbn [andb]. destruct (Str.truthy cc); [|now rewrite (proj2 (Nat.leb_le _ _) E8)].
    rewrite length_append.
    replace (8 <=? String.length cc + String.length d) with true
      by (symmetry; apply Nat.leb_le; lia).
    reflexivity.
  - now rewrite E8.
Qed.

(** C1. [normalizeNumber] works on the digits of the raw string only: what
    it keeps are digits, in their order.  Eleven digits or more are returned
    as they are; eight to ten digits get the configured country prefix in
    front; fewer than eight give none, with or without a prefix. *)
Theorem normalizeNumber_policy (cc raw : string) :
  let d := Str.stripNonDigits raw in
  Str.allChars Str.isDigit d = true /\
  (11 <= String.length d -> normalizeNumber cc raw = Some d) /\
  (8 <= String.length d <= 10 -> cc <> "" ->
   normalizeNumber cc raw = Some (cc ++ d)) /\
  (String.length d < 8 -> normalizeNumber cc raw = None).
Proof.
  intros d. split; [apply stripNonDigits_digits|].
  destruct (string_dec d "") as [E|NE].
  - (* no digit at all *)
    assert (Hnone : normalizeNumber cc raw = None).
    { unfold normalizeNumber. destruct (Str.truthy raw); [|reflexivity].
      cbn [negb]. fold d. now rewrite E. }
    rewrite E. simpl. repeat split; intros; try lia; assumption.
  - pose proof (normalizeNumber_digits cc raw NE) as Hn.
    cbv zeta in Hn. fold d in Hn. rewrite Hn. clear Hn.
    repeat split.
    + intros H. now rewrite (proj2 (Nat.leb_le _ _) H).
    + intros [H8 H10] Hcc.
      replace (11 <=? String.length d) with false
        by (symmetry; apply Nat.leb_gt; lia).
      rewrite (proj2 (Nat.leb_le _ _) H8), (truthy_nonempty _ Hcc).
      reflexivity.
    + intros H.
      replace (11 <=? String.length d) with false
        by (symmetry; apply Nat.leb_gt; lia).
      replace (8 <=? String.length d) with false
        by (symmetry; apply Nat.leb_gt; lia).
      reflexivity.
Qed.

Lemma normalizeNumber_policy_witness :
  normalizeNumber "57" "+57 (300) 123-4567" = Some "573001234567" /\
  normalizeNumber "57" "300-123-4567" = Some "573001234567" /\
  normalizeNumber "57" "12-34-567" = None.
Proof.
  split; [|split].
  - apply (normalizeNumber_policy "57" "+57 (300) 123-4567"). simpl. lia.
  - apply (normalizeNumber_policy "57" "300-123-4567");
      [simpl; lia | discriminate].
  - apply (normalizeNumber_policy "57" "12-34-567"). simpl. lia.
Defined.

(* ------------------------------------------------------------------ *)
(** ** Traces *)

Lemma sleepsOf_app (a b : list Event) :
  sleepsOf (a ++ b) = (sleepsOf a ++ sleepsOf b)%list.
Proof.
  induction a as [|e a IH]; [reflexivity|].
  destruct e; simpl; rewrite IH; reflexivity.
Qed.

Lemma callsOf_app (a b : list Event) :
  callsOf (a ++ b) = (callsOf a ++ callsOf b)%list.
Proof.
  induction a as [|e a IH]; [reflexivity|].
  destruct e; simpl; rewrite IH; reflexivity.
Qed.

Lemma call_neverSleeps {W A} (c : Call) (op : W -> Res A * W) :
  neverSleeps (call c op).
Proof.
  intros s. unfold call. destruct (op (world s)) as [r w]. simpl.
  rewrite sleepsOf_app. simpl. apply app_nil_r.
Qed.

(* ------------------------------------------------------------------ *)
(** ** Retry executor *)

Section Retry.

Context {W A : Type} `{Collaborators W}.
Variable fn : M W A.
Variable label : string.

Lemma afterFailure_run (attempt : nat) (e : Thrown) (t : St W) :
  afterFailure label attempt e t =
    (Ret tt,
     mkSt (elapse (backoffDelay attempt) (world t)) (session t)
          ((trace t ++ [EvWarn (retryWarning label attempt e)])
             ++ [EvSleep (backoffDelay attempt)])%list
          (results t)).
Proof. reflexivity. Qed.

Lemma retryLoop_succeeds (errs : list Thrown) :
  forall remaining attempt last s s1 v s',
    List.length errs < remaining ->
    failsInARow fn label attempt s errs s1 ->
    fn s1 = (Ret v, s') ->
    retryLoop fn label remaining attempt last s = (Ret v, s').
Proof.
  induction errs as [|e errs IH]; intros remaining attempt last s s1 v s' Hlen Hf Hok.
  - simpl in Hf. subst s1.
    destruct remaining as [|r]; [simpl in Hlen; lia|].
    cbn [retryLoop]. unfold tryCatch. now rewrite Hok.
  - destruct Hf as [t [Hthrow Hrest]].
    destruct remaining as [|r]; [simpl in Hlen; lia|].
    cbn [retryLoop]. unfold tryCatch. rewrite Hthrow.
    unfold bind at 1. rewrite afterFailure_run.
    rewrite afterFailure_run in Hrest. cbn [snd] in Hrest.
    apply (IH r (S attempt) e _ s1 v s'); [simpl in Hlen; lia | exact Hrest | exact Hok].
Qed.

Lemma last_cons {T} (l : list T) :
  forall x d, List.last (x :: l) d = List.last l x.
Proof.
  induction l as [|y l IH]; intros x d; [reflexivity|].
  change (List.last (x :: y :: l) d) with (List.last (y :: l) d).
  now rewrite !IH.
Qed.

Lemma retryLoop_exhausts (errs : list Thrown) :
  forall remaining attempt lastErr s s',
    List.length errs = remaining ->
    failsInARow fn label attempt s errs s' ->
    retryLoop fn label remaining attempt lastErr s
    = (Throw (List.last errs lastErr), s').
Proof.
  induction errs as [|e errs IH]; intros remaining attempt lastErr s s' Hlen Hf.
  - simpl in Hf, Hlen. subst. reflexivity.
  - destruct Hf as [t [Hthrow Hrest]].
    destruct remaining as [|r]; [discriminate|].
    cbn [retryLoop]. unfold tryCatch. rewrite Hthrow.
    unfold bind at 1. rewrite afterFailure_run.
    rewrite afterFailure_run in Hrest. cbn [snd] in Hrest.
    rewrite (IH r (S attempt) e _ s'); [|simpl in Hlen; lia | exact Hrest].
    now rewrite last_cons.
Qed.

Lemma failsInARow_sleeps (errs : list Thrown) :
  neverSleeps fn ->
  forall attempt s s',
    failsInARow fn label attempt s errs s' ->
    sleepsOf (trace s')
    = (sleepsOf (trace s)
         ++ map backoffDelay (seq attempt (List.length errs)))%list.
Proof.
  intros Hq. induction errs as [|e errs IH]; intros attempt s s' Hf.
  - simpl in Hf. subst. simpl. now rewrite app_nil_r.
  - destruct Hf as [t [Hthrow Hrest]].
    rewrite afterFailure_run in Hrest. cbn [snd] in Hrest.
    rewrite (IH _ _ _ Hrest). cbn [trace].
    rewrite !sleepsOf_app. simpl.
    pose proof (Hq s) as Hs. rewrite Hthrow in Hs. cbn [snd] in Hs.
    rewrite Hs, app_nil_r, <- app_assoc. reflexivity.
Qed.

(** C2. An operation that throws on its first [k] invocations and returns
    [v] on the next one, with [k] below the budget of three attempts, makes
    [withRetries] return [v]; the retries are exactly [k], each preceded by
    a sleep, and the sleep after failed attempt [attempt] lasts
    [RETRY_BASE_MS * 2^attempt] milliseconds. *)
Theorem withRetries_succeeds_after_failures
    (s s1 s' : St W) (errs : list Thrown) (v : A) :
  List.length errs < MAX_RETRIES ->
  neverSleeps fn ->
  failsInARow fn label 0 s errs s1 ->
  fn s1 = (Ret v, s') ->
  withRetries fn label s = (Ret v, s') /\
  sleepsOf (trace s')
  = (sleepsOf (trace s)
       ++ map (fun attempt => RETRY_BASE_MS * 2 ^ Z.of_nat attempt)%Z
              (seq 0 (List.length errs)))%list.
Proof.
  intros Hk Hq Hf Hok. split.
  - apply (retryLoop_succeeds errs MAX_RETRIES 0 ThrownUndefined s s1 v s' Hk Hf Hok).
  - pose proof (Hq s1) as Hs. rewrite Hok in Hs. cbn [snd] in Hs.
    rewrite Hs. apply (failsInARow_sleeps errs Hq 0 s s1 Hf).
Qed.

(** C3, as the code has it.  An operation that throws on all three attempts
    makes [withRetries] use the whole budget, sleeping 500, 1000 and 2000 ms,
    and then throw the last error as it was thrown.  The label goes into the
    warning printed after each failed attempt, and nowhere else. *)
Theorem withRetries_exhausts_and_rethrows
    (s s' : St W) (errs : list Thrown) :
  List.length errs = MAX_RETRIES ->
  neverSleeps fn ->
  failsInARow fn label 0 s errs s' ->
  withRetries fn label s = (Throw (List.last errs ThrownUndefined), s') /\
  sleepsOf (trace s') = (sleepsOf (trace s) ++ [500; 1000; 2000]%Z)%list /\
  (forall attempt err,
     Str.includes label (retryWarning label attempt err) = true).
Proof.
  intros Hn Hq Hf. split; [|split].
  - apply (retryLoop_exhausts errs MAX_RETRIES 0 ThrownUndefined s s' Hn Hf).
  - rewrite (failsInARow_sleeps errs Hq 0 s s' Hf), Hn. reflexivity.
  - intros attempt err. unfold retryWarning. apply includes_append.
Qed.

End Retry.

(** The lookup that fails twice and then finds the account. *)
Lemma withRetries_succeeds_after_failures_witness :
  let fn := call (CallGetNumberId "573001234567")
                 (client_getNumberId "573001234567") in
  let s := Scripted.start true
             (Scripted.lookups [Throw Scripted.boom; Throw Scripted.boom;
                                Scripted.account "573001234567"]) in
  fst (withRetries fn "getNumberId" s)
  = Ret (Some {| _serialized := "573001234567@c.us" |}) /\
  sleepsOf (trace (snd (withRetries fn "getNumberId" s))) = [500; 1000]%Z /\
  Scripted.lookupQ (world (snd (withRetries fn "getNumberId" s))) = [].
Proof.
  intros fn s.
  edestruct (withRetries_succeeds_after_failures fn "getNumberId" s)
    with (errs := [Scripted.boom; Scripted.boom]) as [E Hs].
  - simpl. unfold MAX_RETRIES. lia.
  - apply call_neverSleeps.
  - simpl. eexists; split; [reflexivity|]. eexists; split; [reflexivity|].
    reflexivity.
  - reflexivity.
  - rewrite E. cbn [fst snd]. split; [reflexivity|]. split; [exact Hs|reflexivity].
Defined.

(** The lookup that fails three times. *)
Lemma withRetries_exhausts_and_rethrows_witness :
  let fn := call (CallGetNumberId "573001234567")
                 (client_getNumberId "573001234567") in
  let s := Scripted.start true
             (Scripted.lookups [Throw (newError "one"); Throw (newError "two");
                                Throw (newError "three");
                                Scripted.account "573001234567"]) in
  fst (withRetries fn "getNumberId" s) = Throw (ErrorObj "Error" "three") /\
  sleepsOf (trace (snd (withRetries fn "getNumberId" s)))
  = [500; 1000; 2000]%Z /\
  List.length (Scripted.lookupQ (world (snd (withRetries fn "getNumberId" s))))
  = 1.
Proof.
  intros fn s.
  edestruct (withRetries_exhausts_and_rethrows fn "getNumberId" s)
    with (errs := [newError "one"; newError "two"; newError "three"])
    as [E [Hs _]].
  - reflexivity.
  - apply call_neverSleeps.
  - simpl. eexists; split; [reflexivity|]. eexists; split; [reflexivity|].
    eexists; split; [reflexivity|]. reflexivity.
  - rewrite E. cbn [fst snd]. split; [reflexivity|]. split; [exact Hs|reflexivity].
Defined.

(** C3 as stated fails: the error [withRetries] propagates for an operation
    labelled [getNumberId] that throws [boom] three times is [boom] itself,
    which does not mention the label. *)
Lemma withRetries_error_not_annotated :
  let fn := call (CallGetNumberId "573001234567")
                 (client_getNumberId "573001234567") in
  let s := Scripted.start true
             (Scripted.lookups [Throw Scripted.boom; Throw Scripted.boom;
                                Throw Scripted.boom]) in
  exists e s',
    failsInARow fn "getNumberId" 0 s
                [Scripted.boom; Scripted.boom; Scripted.boom] s' /\
    withRetries fn "getNumberId" s = (Throw e, s') /\
    annotatedWith "getNumberId" e = false.
Proof.
  intros fn s. eexists. eexists. split; [|split].
  - simpl. eexists; split; [reflexivity|]. eexists; split; [reflexivity|].
    eexists; split; [reflexivity|]. reflexivity.
  - reflexivity.
  - reflexivity.
Qed.

(* ------------------------------------------------------------------ *)
(** ** Frames: what a computation leaves related *)

Section Frames.

Context {W : Type} `{Collaborators W}.
Variable R : St W -> St W -> Prop.
Hypothesis R_refl : forall s, R s s.
Hypothesis R_trans : forall a b c, R a b -> R b c -> R a c.
Hypothesis R_console :
  forall e s, match e with EvCall _ => False | _ => True end ->
              R s (snd (emit e s)).
Hypothesis R_sleep : forall ms s, R s (snd (sleep ms s)).

Lemma respects_ret {A} (a : A) : respects R (ret a).
Proof. intros s. apply R_refl. Qed.

Lemma respects_throw {A} (e : Thrown) : respects R (@throw W A e).
Proof. intros s. apply R_refl. Qed.

Lemma respects_bind {A B} (m : M W A) (k : A -> M W B) :
  respects R m -> (forall a, respects R (k a)) -> respects R (bind m k).
Proof.
  intros Hm Hk s. unfold bind. pose proof (Hm s) as Hs.
  destruct (m s) as [[a|e] s1]; cbn [snd] in *.
  - eapply R_trans; [exact Hs | apply Hk].
  - exact Hs.
Qed.

Lemma respects_tryCatch {A} (m : M W A) (h : Thrown -> M W A) :
  respects R m -> (forall e, respects R (h e)) -> respects R (tryCatch m h).
Proof.
  intros Hm Hh s. unfold tryCatch. pose proof (Hm s) as Hs.
  destruct (m s) as [[a|e] s1]; cbn [snd] in *.
  - exact Hs.
  - eapply R_trans; [exact Hs | apply Hh].
Qed.

Lemma respects_log (line : string) : respects R (log line).
Proof. intros s. now apply R_console. Qed.

Lemma respects_warn (line : string) : respects R (warn line).
Proof. intros s. now apply R_console. Qed.

Lemma respects_error (line : string) : respects R (error line).
Proof. intros s. now apply R_console. Qed.

Lemma respects_sleep (ms : Z) : respects R (sleep ms).
Proof. intros s. apply R_sleep. Qed.

Lemma respects_retryLoop {A} (fn : M W A) (label : string) :
  respects R fn ->
  forall remaining attempt lastErr,
    respects R (retryLoop fn label remaining attempt lastErr).
Proof.
  intros Hfn. induction remaining as [|r IH]; intros attempt lastErr.
  - apply respects_throw.
  - cbn [retryLoop]. apply respects_tryCatch; [exact Hfn|].
    intros e. apply respects_bind.
    + apply respects_bind; [apply respects_warn|].
      intros _. apply respects_sleep.
    + intros _. apply IH.
Qed.

Lemma respects_withRetries {A} (fn : M W A) (label : string) :
  respects R fn -> respects R (withRetries fn label).
Proof. intros Hfn. now apply respects_retryLoop. Qed.

End Frames.

Section ResultsFrame.

Context {W : Type} `{Collaborators W}.

Lemma keptResults_refl (s : St W) : keptResults s s.
Proof. reflexivity. Qed.

Lemma keptResults_trans (a b c : St W) :
  keptResults a b -> keptResults b c -> keptResults a c.
Proof. unfold keptResults. congruence. Qed.

Lemma keptResults_console (e : Event) (s : St W) :
  match e with EvCall _ => False | _ => True end ->
  keptResults s (snd (emit e s)).
Proof. reflexivity. Qed.

Lemma keptResults_sleep (ms : Z) (s : St W) : keptResults s (snd (sleep ms s)).
Proof. reflexivity. Qed.

Lemma keptResults_call {A} (c : Call) (op : W -> Res A * W) :
  respects keptResults (call c op).
Proof. intros s. unfold call. now destruct (op (world s)). Qed.

Lemma keptResults_retried {A} (c : Call) (op : W -> Res A * W) (label : string) :
  respects keptResults (withRetries (call c op) label).
Proof.
  apply (respects_withRetries keptResults keptResults_refl keptResults_trans
           keptResults_console keptResults_sleep).
  apply keptResults_call.
Qed.

Lemma lookup_keptResults (n : string) : respects keptResults (lookup n).
Proof. apply keptResults_retried. Qed.

Lemma prewarm_keptResults (chatId : string) :
  respects keptResults (prewarm chatId).
Proof.
  apply (respects_tryCatch keptResults keptResults_trans).
  - apply keptResults_call.
  - intros e s. reflexivity.
Qed.

Lemma prewarm_returns (chatId : string) (s : St W) :
  fst (prewarm chatId s) = Ret tt.
Proof.
  unfold prewarm, tryCatch, call.
  destruct (client_getChatById chatId (world s)) as [[[]|e] w]; reflexivity.
Qed.

Lemma sendContent_keptResults (media : option MessageMedia)
    (caption text : option string) (chatId : string) :
  respects keptResults (sendContent media caption text chatId).
Proof.
  unfold sendContent. destruct media as [m|].
  - apply keptResults_retried.
  - destruct text as [t|]; [|intros s; reflexivity].
    destruct (Str.truthy t); [apply keptResults_retried|intros s; reflexivity].
Qed.

End ResultsFrame.

(* ------------------------------------------------------------------ *)
(** ** Bulk dispatcher *)

Section Dispatcher.

Context {W : Type} `{Collaborators W}.
Variable cfg : Config.
Variable media : option MessageMedia.
Variable caption text : option string.

Local Abbreviation process := (processRecipient cfg media caption text).
Local Abbreviation loop := (dispatchLoop cfg media caption text).
Local Abbreviation outcome := (recordedOutcome cfg media caption text).

(** One iteration returns normally and pushes exactly the recorded outcome. *)
Lemma processRecipient_steps (raw : string) (s : St W) :
  exists s', process raw s = (Ret tt, s') /\
             results s' = (results s ++ [outcome raw s])%list.
Proof.
  unfold processRecipient, recordedOutcome.
  destruct (normalizeNumber (DEFAULT_COUNTRY_CODE cfg) raw) as [n|];
    [|eexists; split; reflexivity].
  unfold tryCatch at 1. unfold lookupAndSend. unfold bind at 1.
  change (withRetries (call (CallGetNumberId n) (client_getNumberId n))
                      "getNumberId") with (lookup n).
  pose proof (lookup_keptResults n s) as K1. unfold keptResults in K1.
  destruct (lookup n s) as [[[id|]|err] s1]; cbn [snd] in K1.
  - (* an account: pre-warm, send, classify, pause *)
    unfold bind at 1.
    change (tryCatch (call (CallGetChatById (_serialized id))
                           (client_getChatById (_serialized id)))
                     (fun _ => ret tt)) with (prewarm (_serialized id)).
    pose proof (prewarm_returns (_serialized id) s1) as P.
    pose proof (prewarm_keptResults (_serialized id) s1) as K2.
    unfold keptResults in K2.
    destruct (prewarm (_serialized id) s1) as [r2 s2]; cbn [fst snd] in *.
    subst r2. unfold bind at 1. unfold tryCatch at 1. unfold bind at 1.
    pose proof (sendContent_keptResults media caption text (_serialized id) s2)
      as K3. unfold keptResults in K3.
    destruct (sendContent media caption text (_serialized id) s2)
      as [[[]|err] s3]; cbn [snd] in K3.
    + eexists; split; [reflexivity|]. cbn. congruence.
    + unfold onSendError, isKnownSerializationDefect.
      destruct (Str.includes "getMessageModel" (errText err)
                || Str.includes "serialize" (errText err));
        (eexists; split; [reflexivity|]); cbn; congruence.
  - (* no account *)
    eexists; split; [reflexivity|]. cbn. congruence.
  - (* the lookup threw *)
    eexists; split; [reflexivity|]. cbn. congruence.
Qed.

Lemma processRecipient_run (raw : string) (s : St W) :
  fst (process raw s) = Ret tt /\
  results (snd (process raw s)) = (results s ++ [outcome raw s])%list.
Proof.
  destruct (processRecipient_steps raw s) as [s' [E R]].
  rewrite E. split; [reflexivity | exact R].
Qed.

Lemma recordedOutcome_answers (raw : string) (s : St W) :
  answers cfg raw (outcome raw s).
Proof.
  unfold answers, recordedOutcome.
  destruct (normalizeNumber (DEFAULT_COUNTRY_CODE cfg) raw) as [n|];
    [|reflexivity].
  destruct (lookup n s) as [[[id|]|err] s1]; try reflexivity.
  destruct (sendContent media caption text (_serialized id)
                        (snd (prewarm (_serialized id) s1))) as [[[]|err] s3];
    [reflexivity|].
  destruct (isKnownSerializationDefect (errText err)); reflexivity.
Qed.

Lemma dispatchLoop_cons (raw : string) (rest : list string) (s : St W) :
  loop (raw :: rest) s = loop rest (snd (process raw s)).
Proof.
  cbn [dispatchLoop]. unfold bind.
  destruct (processRecipient_run raw s) as [Hr _].
  destruct (process raw s) as [r s1]. cbn [fst snd] in *. now subst r.
Qed.

Lemma dispatchLoop_run (recipients : list string) :
  forall s, exists added,
    fst (loop recipients s) = Ret tt /\
    results (snd (loop recipients s)) = (results s ++ added)%list /\
    List.length added = List.length recipients /\
    Forall2 (answers cfg) recipients added.
Proof.
  induction recipients as [|raw rest IH]; intros s.
  - exists []. cbn. rewrite app_nil_r. repeat split. constructor.
  - rewrite dispatchLoop_cons.
    destruct (processRecipient_run raw s) as [_ Hres].
    destruct (IH (snd (process raw s))) as [added [Hr [Hadd [Hlen Hall]]]].
    exists (outcome raw s :: added). repeat split.
    + exact Hr.
    + rewrite Hadd, Hres, <- app_assoc. reflexivity.
    + simpl. now rewrite Hlen.
    + constructor; [apply recordedOutcome_answers | exact Hall].
Qed.



(** C6. When the retried send for a recipient throws, the entry recorded is
    [sent_with_warning] if the error text contains [getMessageModel] or
    [serialize], and [failed] with that text as its reason otherwise. *)
Theorem send_error_classification
    (raw n : string) (id : NumberId) (err : Thrown) (s : St W) :
  normalizeNumber (DEFAULT_COUNTRY_CODE cfg) raw = Some n ->
  fst (lookup n s) = Ret (Some id) ->
  fst (sendContent media caption text (_serialized id)
         (snd (prewarm (_serialized id) (snd (lookup n s))))) = Throw err ->
  fst (process raw s) = Ret tt /\
  results (snd (process raw s))
  = (results s
       ++ [if Str.includes "getMessageModel" (errText err)
              || Str.includes "serialize" (errText err)
           then {| number := n; status := sent_with_warning; reason := None;
                   warning := Some "Bug de serialización en wwebjs" |}
           else {| number := n; status := failed;
                   reason := Some (errText err); warning := None |}])%list.
Proof.
  intros E L S.
  destruct (processRecipient_run raw s) as [Hr Hres].
  split; [exact Hr|]. rewrite Hres. f_equal. f_equal.
  unfold recordedOutcome. rewrite E.
  destruct (lookup n s) as [r s1]. cbn [fst snd] in L, S. subst r.
  destruct (sendContent media caption text (_serialized id)
                        (snd (prewarm (_serialized id) s1))) as [r3 s3].
  cbn [fst] in S. subst r3. reflexivity.
Qed.

End Dispatcher.


(** A send that keeps failing with the serialization defect, and one that
    keeps failing otherwise. *)
Lemma send_error_classification_witness :
  let defect := newError "Cannot read properties of undefined (reading 'getMessageModel')" in
  let other := newError "Protocol error: Target closed" in
  let world e := Scripted.script [] [] [Scripted.account "573001234567"]
                                 [Ret tt] [Throw e; Throw e; Throw e] in
  let run e := processRecipient Scripted.cfg57 None None (Some "hi")
                 "3001234567" (Scripted.start true (world e)) in
  results (snd (run defect)) = [warningEntry "573001234567"] /\
  results (snd (run other))
  = [failedEntry "573001234567" "Protocol error: Target closed"].
Proof.
  intros defect other world run. split.
  - apply (send_error_classification Scripted.cfg57 None None (Some "hi")
             "3001234567" "573001234567"
             {| _serialized := "573001234567@c.us" |} defect
             (Scripted.start true (world defect)));
      reflexivity.
  - apply (send_error_classification Scripted.cfg57 None None (Some "hi")
             "3001234567" "573001234567"
             {| _serialized := "573001234567@c.us" |} other
             (Scripted.start true (world other)));
      reflexivity.
Defined.

(* ------------------------------------------------------------------ *)
(** ** Which collaborator calls a computation makes *)

Section CallsFrame.

Context {W : Type} `{Collaborators W}.
Variable Q : Call -> Prop.

Lemma grewBy_refl (s : St W) : grewBy Q s s.
Proof. exists []. split; [now rewrite app_nil_r | constructor]. Qed.

Lemma grewBy_same (s s' : St W) : trace s' = trace s -> grewBy Q s s'.
Proof. intros E. exists []. split; [now rewrite app_nil_r | constructor]. Qed.

Lemma grewBy_trans (a b c : St W) : grewBy Q a b -> grewBy Q b c -> grewBy Q a c.
Proof.
  intros [d1 [E1 F1]] [d2 [E2 F2]]. exists (d1 ++ d2)%list. split.
  - now rewrite E2, E1, app_assoc.
  - rewrite callsOf_app. apply Forall_app. now split.
Qed.

Lemma grewBy_console (e : Event) (s : St W) :
  match e with EvCall _ => False | _ => True end -> grewBy Q s (snd (emit e s)).
Proof.
  intros He. exists [e]. split; [reflexivity|].
  destruct e; simpl in *; solve [constructor | contradiction].
Qed.

Lemma grewBy_sleep (ms : Z) (s : St W) : grewBy Q s (snd (sleep ms s)).
Proof. exists [EvSleep ms]. split; [reflexivity | constructor]. Qed.

Lemma callsOnly_call {A} (c : Call) (op : W -> Res A * W) :
  Q c -> callsOnly Q (call c op).
Proof.
  intros Hc s. exists [EvCall c]. unfold call.
  destruct (op (world s)) as [r w]. split; [reflexivity|].
  constructor; [exact Hc | constructor].
Qed.

Lemma callsOnly_ret {A} (a : A) : callsOnly Q (@ret W A a).
Proof. intros s. apply grewBy_refl. Qed.

Lemma callsOnly_throw {A} (e : Thrown) : callsOnly Q (@throw W A e).
Proof. intros s. apply grewBy_refl. Qed.

Lemma callsOnly_bind {A B} (m : M W A) (k : A -> M W B) :
  callsOnly Q m -> (forall a, callsOnly Q (k a)) -> callsOnly Q (bind m k).
Proof. apply (respects_bind (grewBy Q) grewBy_trans). Qed.

Lemma callsOnly_tryCatch {A} (m : M W A) (h : Thrown -> M W A) :
  callsOnly Q m -> (forall e, callsOnly Q (h e)) -> callsOnly Q (tryCatch m h).
Proof. apply (respects_tryCatch (grewBy Q) grewBy_trans). Qed.

Lemma callsOnly_withRetries {A} (fn : M W A) (label : string) :
  callsOnly Q fn -> callsOnly Q (withRetries fn label).
Proof.
  apply (respects_withRetries (grewBy Q) grewBy_refl grewBy_trans
           grewBy_console grewBy_sleep).
Qed.

Lemma callsOnly_log (line : string) : callsOnly Q (@log W line).
Proof. intros s. now apply grewBy_console. Qed.

Lemma callsOnly_warn (line : string) : callsOnly Q (@warn W line).
Proof. intros s. now apply grewBy_console. Qed.

Lemma callsOnly_error (line : string) : callsOnly Q (@error W line).
Proof. intros s. now apply grewBy_console. Qed.

Lemma callsOnly_sleep (ms : Z) : callsOnly Q (sleep ms).
Proof. intros s. apply grewBy_sleep. Qed.

Lemma callsOnly_push (entry : ResultEntry) : callsOnly Q (@push W entry).
Proof. intros s. now apply grewBy_same. Qed.

Lemma callsOnly_newResults : callsOnly Q (@newResults W).
Proof. intros s. now apply grewBy_same. Qed.

Lemma callsOnly_getResults : callsOnly Q (@getResults W).
Proof. intros s. now apply grewBy_same. Qed.

End CallsFrame.

Create HintDb calls.
#[local] Hint Resolve callsOnly_ret callsOnly_throw callsOnly_log callsOnly_warn
  callsOnly_error callsOnly_sleep callsOnly_push callsOnly_newResults
  callsOnly_getResults : calls.

Section DispatcherCalls.

Context {W : Type} `{Collaborators W}.
Variable cfg : Config.
Variable Q : Call -> Prop.
Hypothesis Q_lookup : forall n, Q (CallGetNumberId n).
Hypothesis Q_chat : forall chatId, Q (CallGetChatById chatId).

(** The loop makes lookups, pre-warms and whatever calls its send makes. *)
Lemma dispatchLoop_calls (media : option MessageMedia)
    (caption text : option string) :
  (forall chatId, callsOnly Q (sendContent media caption text chatId)) ->
  forall recipients,
    callsOnly Q (dispatchLoop cfg media caption text recipients).
Proof.
  intros Hsend. induction recipients as [|raw rest IH]; cbn [dispatchLoop];
    [auto with calls|].
  apply callsOnly_bind; [|intros _; exact IH].
  unfold processRecipient.
  destruct (normalizeNumber (DEFAULT_COUNTRY_CODE cfg) raw) as [n|];
    [|auto with calls].
  apply callsOnly_tryCatch.
  - unfold lookupAndSend. apply callsOnly_bind.
    + apply callsOnly_withRetries, callsOnly_call, Q_lookup.
    + intros [id|]; [|auto with calls].
      apply callsOnly_bind.
      * apply callsOnly_tryCatch; [apply callsOnly_call, Q_chat|].
        intros _. auto with calls.
      * intros _. apply callsOnly_bind; [|intros _; auto with calls].
        apply callsOnly_tryCatch.
        -- apply callsOnly_bind; [apply Hsend|]. intros _.
           apply callsOnly_bind; auto with calls.
        -- intros e. unfold onSendError.
           destruct (Str.includes "getMessageModel" (errText e)
                     || Str.includes "serialize" (errText e));
             apply callsOnly_bind; auto with calls.
  - intros e. apply callsOnly_bind; auto with calls.
Qed.

End DispatcherCalls.

(* ------------------------------------------------------------------ *)
(** ** Media resolver *)

Section Media.

Context {W : Type} `{Collaborators W}.
Variable cfg : Config.

Lemma contentTypeOf_header (resp : AxiosResponse) :
  (forall ct, contentTypeHeader resp = Some ct -> ct <> "" ->
              contentTypeOf resp = ct) /\
  (contentTypeHeader resp = None -> contentTypeOf resp = "image/jpeg").
Proof.
  unfold contentTypeOf. split.
  - intros ct E NE. rewrite E. now rewrite (truthy_nonempty _ NE).
  - intros E. now rewrite E.
Qed.

Lemma manualDownload_run (url : string) (t : St W) :
  manualDownload cfg url t
  = let t' w := mkSt w (session t)
                  (trace t ++ [EvCall (CallAxiosGet url (axiosConfig cfg))])%list
                  (results t) in
    match axios_get url (axiosConfig cfg) (world t) with
    | (Ret resp, w) =>
        (Ret {| mimetype := contentTypeOf resp;
                data := toBase64 (respData resp);
                filename := Some (filenameOfUrl url) |}, t' w)
    | (Throw e, w) =>
        (Throw (newError ("No se pudo descargar la imagen: " ++ errText e)),
         t' w)
    end.
Proof.
  unfold manualDownload, tryCatch, bind, call.
  destruct (axios_get url (axiosConfig cfg) (world t)) as [[resp|e] w];
    reflexivity.
Qed.

Lemma buildMediaFromUrl_primary_throws (url : string) (s : St W)
    (err : Thrown) (w1 : W) :
  MessageMedia_fromUrl url true FROM_URL_TIMEOUT_MS (world s) = (Throw err, w1) ->
  buildMediaFromUrl cfg url s
  = manualDownload cfg url
      (mkSt w1 (session s)
         ((trace s ++ [EvCall (CallFromUrl url true FROM_URL_TIMEOUT_MS)])
            ++ [EvWarn ("fromUrl falló, usando fallback manual: "
                        ++ errText err)])%list
         (results s)).
Proof.
  intros E. unfold buildMediaFromUrl, tryCatch, call. now rewrite E.
Qed.

(** When the primary path throws, the download is attempted next; when the
    download returns, the media is built from its response. *)
Lemma buildMediaFromUrl_fallback (url : string) (s : St W) (err : Thrown) (w1 : W) :
  MessageMedia_fromUrl url true FROM_URL_TIMEOUT_MS (world s) = (Throw err, w1) ->
  callsOf (trace (snd (buildMediaFromUrl cfg url s)))
  = (callsOf (trace s)
       ++ [CallFromUrl url true FROM_URL_TIMEOUT_MS;
           CallAxiosGet url (axiosConfig cfg)])%list /\
  (forall resp w2,
     axios_get url (axiosConfig cfg) w1 = (Ret resp, w2) ->
     fst (buildMediaFromUrl cfg url s)
     = Ret {| mimetype := contentTypeOf resp;
              data := toBase64 (respData resp);
              filename := Some (filenameOfUrl url) |}).
Proof.
  intros E. rewrite (buildMediaFromUrl_primary_throws url s err w1 E).
  rewrite manualDownload_run. cbv zeta. cbn [world trace session results].
  split.
  - destruct (axios_get url (axiosConfig cfg) w1) as [[resp|e2] w2];
      cbn [snd trace]; rewrite !callsOf_app; cbn;
      rewrite app_nil_r, <- app_assoc; reflexivity.
  - intros resp w2 E2. now rewrite E2.
Qed.

Lemma buildMediaFromUrl_calls (url : string) :
  callsOnly isMediaCall (buildMediaFromUrl cfg url).
Proof.
  unfold buildMediaFromUrl. apply callsOnly_tryCatch.
  - now apply callsOnly_call.
  - intros e. apply callsOnly_bind; [auto with calls|]. intros _.
    unfold manualDownload. apply callsOnly_tryCatch.
    + apply callsOnly_bind; [now apply callsOnly_call|].
      intros resp. auto with calls.
    + intros e'. auto with calls.
Qed.

End Media.

(** Without a [/] in the query, the file name is the final path segment, or
    [image] when that segment is empty. *)
Lemma lastSegmentFrom_no_sep (sep : ascii) (r : string) :
  Str.allChars (fun c => negb (Ascii.eqb c sep)) r = true ->
  forall acc, Str.lastSegmentFrom sep acc r = acc ++ r.
Proof.
  induction r as [|c r IH]; intros Hr acc; cbn.
  - clear. induction acc as [|a acc IH]; cbn; [reflexivity | now rewrite <- IH].
  - cbn in Hr. apply andb_true_iff in Hr as [Hc Hr].
    apply negb_true_iff in Hc. rewrite Hc, (IH Hr).
    clear. induction acc as [|a acc IH]; cbn; [reflexivity | now rewrite IH].
Qed.

Lemma firstSegment_stops (sep : ascii) (acc rest : string) :
  Str.allChars (fun c => negb (Ascii.eqb c sep)) acc = true ->
  Str.firstSegment sep (acc ++ String sep rest) = acc.
Proof.
  induction acc as [|a acc IH]; cbn; intros Ha.
  - now rewrite Ascii.eqb_refl.
  - apply andb_true_iff in Ha as [Hc Ha]. apply negb_true_iff in Hc.
    now rewrite Hc, (IH Ha).
Qed.

Lemma firstSegment_whole (sep : ascii) (acc : string) :
  Str.allChars (fun c => negb (Ascii.eqb c sep)) acc = true ->
  Str.firstSegment sep acc = acc.
Proof.
  induction acc as [|a acc IH]; cbn; intros Ha; [reflexivity|].
  apply andb_true_iff in Ha as [Hc Ha]. apply negb_true_iff in Hc.
  now rewrite Hc, (IH Ha).
Qed.

Lemma allChars_snoc (p : ascii -> bool) (acc : string) (c : ascii) :
  Str.allChars p acc = true -> p c = true ->
  Str.allChars p (acc ++ String c "") = true.
Proof.
  induction acc as [|a acc IH]; cbn; intros Ha Hc.
  - now rewrite Hc.
  - apply andb_true_iff in Ha as [Ha1 Ha2]. now rewrite Ha1, IH.
Qed.

Lemma segments_commute (url : string) :
  forall acc,
    Str.allChars (fun c => negb (Ascii.eqb c "?")) acc = true ->
    queryHasNoSlash url = true ->
    Str.firstSegment "?" (Str.lastSegmentFrom "/" acc url)
    = Str.lastSegmentFrom "/" acc (Str.firstSegment "?" url).
Proof.
  unfold queryHasNoSlash.
  induction url as [|c url IH]; intros acc Hacc Hq.
  - cbn. now apply firstSegment_whole.
  - cbn [Str.lastSegmentFrom Str.firstSegment Str.afterFirst] in *.
    destruct (Ascii.eqb c "/") eqn:Eslash.
    + apply Ascii.eqb_eq in Eslash. subst c. cbn [Ascii.eqb Bool.eqb andb] in *.
      cbn [Str.lastSegmentFrom]. rewrite Ascii.eqb_refl.
      apply IH; [reflexivity | exact Hq].
    + destruct (Ascii.eqb c "?") eqn:Equery.
      * apply Ascii.eqb_eq in Equery. subst c. cbn [Str.lastSegmentFrom].
        rewrite (lastSegmentFrom_no_sep "/" url Hq).
        rewrite append_assoc. cbn [append].
        now apply firstSegment_stops.
      * cbn [Str.lastSegmentFrom]. rewrite Eslash.
        apply IH; [|exact Hq].
        apply allChars_snoc; [exact Hacc | now rewrite Equery].
Qed.

Lemma filenameOfUrl_final_segment (url : string) :
  queryHasNoSlash url = true ->
  filenameOfUrl url
  = if Str.truthy (finalPathSegment url) then finalPathSegment url else "image".
Proof.
  intros Hq. unfold filenameOfUrl, finalPathSegment, Str.lastSegment.
  now rewrite (segments_commute url "" eq_refl Hq).
Qed.

(** C7, where the code departs from it.  The primary path throws, the
    download succeeds and its content type is kept, but for a URL whose query
    contains a [/] the file name is cut out of the query: here [index], while
    the final path segment is [promo.jpg]. *)
Theorem buildMediaFromUrl_filename_from_query :
  let url := "https://cdn.example.com/img/promo.jpg?next=/home/index" in
  let s := Scripted.start true
             (Scripted.script
                [Throw (newError "timeout of 20000ms exceeded")]
                [Ret {| contentTypeHeader := Some "image/png";
                        respData := "bytes" |}]
                [] [] []) in
  fst (buildMediaFromUrl Scripted.cfg57 url s)
  = Ret {| mimetype := "image/png"; data := "bytes";
           filename := Some "index" |} /\
  finalPathSegment url = "promo.jpg" /\
  queryHasNoSlash url = false.
Proof. intros url s. repeat split; reflexivity. Qed.

(* ------------------------------------------------------------------ *)
(** ** API surface *)

Section Api.

Context {W : Type} `{Collaborators W}.
Variable cfg : Config.

Lemma sendContent_media_calls (m : MessageMedia) (caption text : option string)
    (chatId : string) :
  callsOnly (sendsOnly (MediaContent m caption))
            (sendContent (Some m) caption text chatId).
Proof.
  cbn [sendContent]. apply callsOnly_withRetries, callsOnly_call. reflexivity.
Qed.



Lemma resolveMedia_of_image (url : string) (s : St W) :
  Str.truthy url = true ->
  resolveMedia cfg (Some url) s
  = match withRetries (buildMediaFromUrl cfg url) "buildMediaFromUrl" s with
    | (Ret m, s1) => (Ret (inr (Some m)), s1)
    | (Throw err, s1) =>
        (Ret (inl (errorResponse 400 "No se pudo preparar la imagen"
                                 (Some (errText err)))), s1)
    end.
Proof.
  intros Ht. unfold resolveMedia. rewrite Ht. unfold tryCatch, bind.
  destruct (withRetries (buildMediaFromUrl cfg url) "buildMediaFromUrl" s)
    as [[m|err] s1]; reflexivity.
Qed.

(** The handler once validation has passed with an image URL. *)
Lemma postSendWhatsapp_with_image (b : Body) (recipients : list string)
    (url : string) (s : St W) :
  numbers b = Some recipients -> recipients <> [] ->
  clientReady (session s) = true ->
  imageUrl b = Some url -> Str.truthy url = true ->
  postSendWhatsapp cfg (Some b) s
  = match withRetries (buildMediaFromUrl cfg url) "buildMediaFromUrl" s with
    | (Ret m, s1) =>
        dispatchAndReport cfg (Some m) (caption b) (text b) recipients s1
    | (Throw err, s1) =>
        (Ret (errorResponse 400 "No se pudo preparar la imagen"
                            (Some (errText err))), s1)
    end.
Proof.
  intros Hn Hne Hr Hi Ht. unfold postSendWhatsapp. cbn [bodyOrEmpty].
  rewrite Hn. destruct recipients as [|r rs]; [congruence|].
  unfold bind at 1, getClientReady. rewrite Hr. cbn [negb].
  rewrite Hi. cbn [present]. rewrite Ht. cbn [negb andb].
  unfold bind at 1. rewrite (resolveMedia_of_image url s Ht).
  destruct (withRetries (buildMediaFromUrl cfg url) "buildMediaFromUrl" s)
    as [[m|err] s1]; reflexivity.
Qed.


Lemma dispatchAndReport_calls (Q : Call -> Prop) (media : option MessageMedia)
    (caption text : option string) (recipients : list string) :
  (forall n, Q (CallGetNumberId n)) ->
  (forall chatId, Q (CallGetChatById chatId)) ->
  (forall chatId, callsOnly Q (sendContent media caption text chatId)) ->
  callsOnly Q (dispatchAndReport cfg media caption text recipients).
Proof.
  intros Hl Hc Hs. unfold dispatchAndReport.
  apply callsOnly_bind; [auto with calls|]. intros _.
  apply callsOnly_bind; [now apply dispatchLoop_calls|]. intros _.
  apply callsOnly_bind; [auto with calls|]. intros rs. auto with calls.
Qed.

Lemma callsOnly_weaken {A} (Q Q' : Call -> Prop) (m : M W A) :
  (forall c, Q c -> Q' c) -> callsOnly Q m -> callsOnly Q' m.
Proof.
  intros Himp Hm s. destruct (Hm s) as [d [E F]]. exists d. split; [exact E|].
  eapply Forall_impl; [exact Himp | exact F].
Qed.

(** C5, as the code orders its checks.  A request whose [numbers] is missing
    or empty is answered 400 without reading the session; with recipients
    given and the session not ready the answer is 503, whatever else the body
    holds; with recipients given, the session ready and neither [imageUrl]
    nor [text] present the answer is 400.  None of the three touches the
    collaborators. *)
Theorem validation_order (reqBody : option Body) (s : St W) :
  let b := bodyOrEmpty reqBody in
  (numbers b = None \/ numbers b = Some [] ->
   postSendWhatsapp cfg reqBody s
   = (Ret (errorResponse 400 "Faltan parámetros: numbers[]" None), s)) /\
  (forall r rs,
     numbers b = Some (r :: rs) -> clientReady (session s) = false ->
     postSendWhatsapp cfg reqBody s
     = (Ret (errorResponse 503 "El cliente de WhatsApp aún no está listo." None),
        s)) /\
  (forall r rs,
     numbers b = Some (r :: rs) -> clientReady (session s) = true ->
     present (imageUrl b) = false -> present (text b) = false ->
     postSendWhatsapp cfg reqBody s
     = (Ret (errorResponse 400 "Debes enviar imageUrl o text." None), s)).
Proof.
  intros b. unfold postSendWhatsapp. fold b. split; [|split].
  - intros [E|E]; rewrite E; reflexivity.
  - intros r rs E Hr. rewrite E. unfold bind, getClientReady. now rewrite Hr.
  - intros r rs E Hr Hi Ht. rewrite E. unfold bind, getClientReady.
    rewrite Hr. cbn [negb]. now rewrite Hi, Ht.
Qed.


(** C10. With an image URL, the handler resolves the media once, before
    anything else, calling only the media collaborators.  If the retried
    resolution throws, the answer is 400 and the handler stops in the state
    the resolution left: no lookup, pre-warm or send is made.  If it returns
    a media, the handler goes on to the recipients with that media, and from
    there on calls only the recipient collaborators. *)
Theorem media_resolution_precedes_dispatch
    (b : Body) (recipients : list string) (url : string) (s : St W) :
  numbers b = Some recipients -> recipients <> [] ->
  clientReady (session s) = true ->
  imageUrl b = Some url -> Str.truthy url = true ->
  let resolve := withRetries (buildMediaFromUrl cfg url) "buildMediaFromUrl" in
  callsOnly isMediaCall resolve /\
  (forall err s1,
     resolve s = (Throw err, s1) ->
     postSendWhatsapp cfg (Some b) s
     = (Ret (errorResponse 400 "No se pudo preparar la imagen"
                           (Some (errText err))), s1)) /\
  (forall m s1,
     resolve s = (Ret m, s1) ->
     postSendWhatsapp cfg (Some b) s
     = dispatchAndReport cfg (Some m) (caption b) (text b) recipients s1 /\
     callsOnly isRecipientCall
       (dispatchAndReport cfg (Some m) (caption b) (text b) recipients)).
Proof.
  intros Hn Hne Hr Hi Ht resolve.
  pose proof (postSendWhatsapp_with_image b recipients url s Hn Hne Hr Hi Ht)
    as E. fold resolve in E.
  split; [|split].
  - apply callsOnly_withRetries, buildMediaFromUrl_calls.
  - intros err s1 R. now rewrite R in E.
  - intros m s1 R. rewrite R in E. split; [exact E|].
    apply dispatchAndReport_calls; try reflexivity.
    intros chatId.
    apply (callsOnly_weaken (sendsOnly (MediaContent m (caption b)))).
    + intros [ | | | | ] Hc; try exact I; contradiction.
    + apply sendContent_media_calls.
Qed.

End Api.

(** An empty recipient list with the session down, and a body with
    recipients only with the session up and down. *)
Lemma validation_order_witness :
  let none := {| numbers := Some []; imageUrl := None; caption := None;
                 text := Some "hi" |} in
  let bare := {| numbers := Some ["3001234567"]; imageUrl := None;
                 caption := None; text := None |} in
  fst (postSendWhatsapp Scripted.cfg57 (Some none)
         (Scripted.start false Scripted.idle))
  = Ret (errorResponse 400 "Faltan parámetros: numbers[]" None) /\
  fst (postSendWhatsapp Scripted.cfg57 (Some bare)
         (Scripted.start true Scripted.idle))
  = Ret (errorResponse 400 "Debes enviar imageUrl o text." None) /\
  fst (postSendWhatsapp Scripted.cfg57 (Some bare)
         (Scripted.start false Scripted.idle))
  = Ret (errorResponse 503 "El cliente de WhatsApp aún no está listo." None).
Proof.
  intros none bare. split; [|split].
  - destruct (validation_order Scripted.cfg57 (Some none)
                (Scripted.start false Scripted.idle)) as [H400 _].
    now rewrite (H400 (or_intror eq_refl)).
  - destruct (validation_order Scripted.cfg57 (Some bare)
                (Scripted.start true Scripted.idle)) as [_ [_ H400]].
    now rewrite (H400 "3001234567" [] eq_refl eq_refl eq_refl eq_refl).
  - destruct (validation_order Scripted.cfg57 (Some bare)
                (Scripted.start false Scripted.idle)) as [_ [H503 _]].
    now rewrite (H503 "3001234567" [] eq_refl eq_refl).
Defined.

(** C5 as stated fails: a request with recipients and neither [imageUrl]
    nor [text], made while the session is not ready, is answered 503. *)
Lemma content_check_follows_readiness :
  let bare := {| numbers := Some ["3001234567"]; imageUrl := None;
                 caption := None; text := None |} in
  present (imageUrl bare) = false /\ present (text bare) = false /\
  exists resp,
    fst (postSendWhatsapp Scripted.cfg57 (Some bare)
           (Scripted.start false Scripted.idle)) = Ret resp /\
    code resp = 503 /\ code resp <> 400.
Proof.
  intros bare. split; [reflexivity|]. split; [reflexivity|].
  eexists. split; [reflexivity|]. split; [reflexivity | discriminate].
Qed.


(** An image that can be neither built nor downloaded: 400 after three
    rounds of both paths, with the recipient untouched. *)
Lemma media_resolution_precedes_dispatch_witness :
  let url := "https://cdn.example.com/promo.jpg" in
  let b := {| numbers := Some ["3001234567"]; imageUrl := Some url;
              caption := Some "Promo"; text := Some "hi" |} in
  let s := Scripted.start true
             (Scripted.script [] [] [Scripted.account "573001234567"]
                              [Ret tt] [Ret tt]) in
  let after := postSendWhatsapp Scripted.cfg57 (Some b) s in
  fst after
  = Ret (errorResponse 400 "No se pudo preparar la imagen"
           (Some "No se pudo descargar la imagen: script exhausted")) /\
  callsOf (trace (snd after))
  = [CallFromUrl url true FROM_URL_TIMEOUT_MS;
     CallAxiosGet url (axiosConfig Scripted.cfg57);
     CallFromUrl url true FROM_URL_TIMEOUT_MS;
     CallAxiosGet url (axiosConfig Scripted.cfg57);
     CallFromUrl url true FROM_URL_TIMEOUT_MS;
     CallAxiosGet url (axiosConfig Scripted.cfg57)] /\
  Scripted.lookupQ (world (snd after)) = [Scripted.account "573001234567"] /\
  Scripted.sendQ (world (snd after)) = [Ret tt].
Proof.
  intros url b s after.
  assert (Hne : ["3001234567"] <> []) by discriminate.
  destruct (media_resolution_precedes_dispatch Scripted.cfg57 b ["3001234567"]
              url s eq_refl Hne eq_refl eq_refl eq_refl)
    as [_ [Hfail _]].
  destruct (withRetries (buildMediaFromUrl Scripted.cfg57 url)
                        "buildMediaFromUrl" s) as [[m|err] s1] eqn:R;
    pose proof R as R'; vm_compute in R'; [discriminate R'|].
  injection R' as Eerr Es1. subst err s1.
  unfold after. rewrite (Hfail _ _ R).
  repeat split; vm_compute; reflexivity.
Defined.

(* ------------------------------------------------------------------ *)
(** ** Connection lifecycle manager *)

Module LifecycleFacts.
Import Lifecycle.

Ltac open_machine m :=
  destruct m as [[ready cState timer cQr cQrAt init] r con arm next fl sl];
  unfold consistent in *; cbn in *.

Lemma initClient_consistent (m : Machine) :
  consistent m -> consistent (initClient m).
Proof.
  unfold initClient. open_machine m. intros [Hf Ha].
  destruct init; cbn; split; try assumption; lia.
Qed.

Lemma scheduleReconnect_consistent (m : Machine) :
  consistent m -> consistent (scheduleReconnect m).
Proof.
  unfold scheduleReconnect. open_machine m. intros [Hf Ha].
  destruct timer as [h|]; cbn; split; try assumption.
  now rewrite Ha.
Qed.

Lemma tick_consistent (h : nat) (m : Machine) :
  consistent m -> consistent (tick h m).
Proof.
  unfold tick. open_machine m. intros [Hf Ha].
  destruct (existsb (Nat.eqb h) arm); cbn; [|now split].
  destruct (ready || init); cbn; now split.
Qed.

Lemma wake_consistent (m : Machine) : consistent m -> consistent (wake m).
Proof.
  unfold wake. intros Hm. destruct (sleeping m) as [|k] eqn:E; [exact Hm|].
  apply initClient_consistent. exact Hm.
Qed.

Lemma onReady_consistent (m : Machine) : consistent m -> consistent (onReady m).
Proof.
  unfold onReady. open_machine m. intros [Hf Ha].
  destruct timer as [h|]; cbn; subst arm; cbn.
  - rewrite Nat.eqb_refl. cbn. split; [destruct init; lia | reflexivity].
  - split; [destruct init; lia | reflexivity].
Qed.

Lemma lowered_consistent (e : Event) (m : Machine) :
  consistent m ->
  consistent
    (concluded
       (say e (withVars (fun v => setInitializing false (setReady false v)) m))).
Proof.
  open_machine m. intros [Hf Ha]. split; [destruct init; lia | exact Ha].
Qed.

Lemma onInitRejected_consistent (atStartup : bool) (err : Thrown) (m : Machine) :
  consistent m -> consistent (onInitRejected atStartup err m).
Proof.
  unfold onInitRejected. intros Hm. destruct atStartup.
  - apply scheduleReconnect_consistent. revert Hm. open_machine m.
    intros [Hf Ha]. split; [destruct init; lia | exact Ha].
  - revert Hm. open_machine m. intros [Hf Ha]. split; [lia | exact Ha].
Qed.

Lemma step_consistent (m : Machine) (s : Step) :
  consistent m -> consistent (step m s).
Proof.
  intros Hm. destruct s; cbn [step].
  - now apply initClient_consistent.
  - now apply scheduleReconnect_consistent.
  - now apply tick_consistent.
  - now apply wake_consistent.
  - now apply onReady_consistent.
  - apply scheduleReconnect_consistent. now apply lowered_consistent.
  - apply scheduleReconnect_consistent. now apply lowered_consistent.
  - revert Hm. unfold onQr. open_machine m. tauto.
  - revert Hm. unfold onChangeState. open_machine m. tauto.
  - now apply onInitRejected_consistent.
Qed.

Lemma boot_consistent : consistent boot.
Proof. unfold consistent. cbn. split; [lia | reflexivity]. Qed.

Lemma run_consistent (steps : list Step) : consistent (run steps).
Proof.
  unfold run. generalize boot_consistent. generalize boot.
  induction steps as [|s steps IH]; intros m Hm; [exact Hm|].
  cbn [fold_left]. apply IH. now apply step_consistent.
Qed.




End LifecycleFacts.

(* ================================================================== *)
(** * Further properties *)

(* ------------------------------------------------------------------ *)
(** ** Number normalizer, continued *)

Lemma allChars_append (p : ascii -> bool) (a b : string) :
  Str.allChars p (a ++ b) = Str.allChars p a && Str.allChars p b.
Proof.
  induction a as [|c a IH]; cbn; [reflexivity|].
  now rewrite IH, andb_assoc.
Qed.

Lemma countryCodeOfEnv_digits (env : option string) :
  Str.allChars Str.isDigit (countryCodeOfEnv env) = true.
Proof. apply stripNonDigits_digits. Qed.

(** What a successful normalization returned, and why. *)
Lemma normalizeNumber_some (cc raw n : string) :
  normalizeNumber cc raw = Some n ->
  let d := Str.stripNonDigits raw in
  (n = d /\ 8 <= String.length d /\ (11 <= String.length d \/ cc = "")) \/
  (n = cc ++ d /\ 8 <= String.length d <= 10 /\ cc <> "").
Proof.
  intros E d. destruct (string_dec d "") as [Ed|NE].
  - exfalso. unfold normalizeNumber in E.
    destruct (Str.truthy raw); [|discriminate]. cbn [negb] in E.
    fold d in E. rewrite Ed in E. discriminate.
  - rewrite (normalizeNumber_digits cc raw NE) in E. cbv zeta in E. fold d in E.
    destruct (11 <=? String.length d) eqn:E11.
    + apply Nat.leb_le in E11. left. inversion E. repeat split; [lia | now left].
    + apply Nat.leb_gt in E11.
      destruct (8 <=? String.length d) eqn:E8; [|discriminate].
      apply Nat.leb_le in E8. cbn [andb] in E.
      destruct cc as [|c cc]; cbn [Str.truthy] in E; inversion E.
      * left. repeat split; [lia | now right].
      * right. repeat split; [lia | lia | discriminate].
Qed.

(** X1. With no default country code the normalizer is the one of the
    earlier versions of the service: digits only, eight at least. *)
Theorem normalizeNumber_without_prefix (raw : string) :
  normalizeNumber "" raw = normalizeNumberV1 raw.
Proof.
  unfold normalizeNumberV1.
  destruct (string_dec (Str.stripNonDigits raw) "") as [Ed|NE].
  - unfold normalizeNumber. destruct (Str.truthy raw); [|reflexivity].
    cbn [negb]. now rewrite Ed.
  - rewrite (normalizeNumber_digits "" raw NE). cbv zeta.
    destruct raw as [|c raw]; [now elim NE|]. cbn [Str.truthy negb andb].
    rewrite andb_false_r.
    destruct (11 <=? String.length (Str.stripNonDigits (String c raw))) eqn:E11;
      [|reflexivity].
    apply Nat.leb_le in E11.
    replace (8 <=? String.length (Str.stripNonDigits (String c raw))) with true
      by (symmetry; apply Nat.leb_le; lia).
    reflexivity.
Qed.

(** X2. Whatever the environment holds as default country code, a
    normalized number consists of digits only, at least eight of them. *)
Theorem normalizeNumber_result_is_dialable (env : option string) (raw n : string) :
  normalizeNumber (countryCodeOfEnv env) raw = Some n ->
  Str.allChars Str.isDigit n = true /\ 8 <= String.length n.
Proof.
  intros E. destruct (normalizeNumber_some _ _ _ E) as [[En [H8 _]]|[En [H8 _]]];
    subst n.
  - split; [apply stripNonDigits_digits | exact H8].
  - split.
    + now rewrite allChars_append, countryCodeOfEnv_digits, stripNonDigits_digits.
    + rewrite length_append. lia.
Qed.

Lemma normalizeNumber_result_is_dialable_witness :
  normalizeNumber (countryCodeOfEnv (Some "+57")) "(300) 123 45 67"
  = Some "573001234567" /\
  Str.allChars Str.isDigit "573001234567" = true /\
  8 <= String.length "573001234567".
Proof.
  split; [reflexivity|].
  apply (normalizeNumber_result_is_dialable (Some "+57") "(300) 123 45 67").
  reflexivity.
Defined.

Lemma normalizeNumber_kept (cc n : string) :
  Str.allChars Str.isDigit n = true -> 8 <= String.length n ->
  11 <= String.length n \/ cc = "" ->
  normalizeNumber cc n = Some n.
Proof.
  intros Hd H8 Hwhy.
  assert (NE : Str.stripNonDigits n <> "").
  { rewrite (stripNonDigits_fixes_digits n Hd).
    destruct n; [cbn in H8; lia | discriminate]. }
  rewrite (normalizeNumber_digits cc n NE). cbv zeta.
  rewrite (stripNonDigits_fixes_digits n Hd).
  rewrite (proj2 (Nat.leb_le _ _) H8).
  destruct (11 <=? String.length n) eqn:E11; [reflexivity|].
  apply Nat.leb_gt in E11. destruct Hwhy as [H11|Hcc]; [lia|].
  subst cc. reflexivity.
Qed.

Lemma normalizeNumber_prefixed (cc raw : string) :
  8 <= String.length (Str.stripNonDigits raw) <= 10 -> cc <> "" ->
  normalizeNumber cc raw = Some (cc ++ Str.stripNonDigits raw).
Proof.
  intros [H8 H10] Hcc.
  assert (NE : Str.stripNonDigits raw <> "").
  { destruct (Str.stripNonDigits raw); [cbn in H8; lia | discriminate]. }
  rewrite (normalizeNumber_digits cc raw NE). cbv zeta.
  replace (11 <=? String.length (Str.stripNonDigits raw)) with false
    by (symmetry; apply Nat.leb_gt; lia).
  now rewrite (proj2 (Nat.leb_le _ _) H8), (truthy_nonempty _ Hcc).
Qed.

(** X3. Normalizing twice is normalizing once exactly when the default
    country code is empty or has three digits or more.  With a prefix of one
    or two digits, an eight-digit number comes back nine or ten digits long
    and would get the prefix again. *)
Theorem normalizeNumber_idempotent_iff (env : option string) :
  let cc := countryCodeOfEnv env in
  (forall raw n, normalizeNumber cc raw = Some n -> normalizeNumber cc n = Some n)
  <-> (cc = "" \/ 3 <= String.length cc).
Proof.
  intros cc. pose proof (countryCodeOfEnv_digits env) as Hcc. fold cc in Hcc.
  split.
  - intros Hidem. destruct cc as [|c1 cc'] eqn:Ecc; [now left|]. right.
    destruct (le_lt_dec 3 (String.length (String c1 cc'))) as [|Hshort];
      [assumption|exfalso].
    set (raw := "00000000").
    assert (E1 : normalizeNumber (String c1 cc') raw = Some (String c1 cc' ++ raw)).
    { apply (normalizeNumber_prefixed (String c1 cc') raw);
        [unfold raw; vm_compute; split; lia | discriminate]. }
    pose proof (Hidem raw _ E1) as E2.
    assert (Es : Str.stripNonDigits (String c1 cc' ++ raw) = String c1 cc' ++ raw).
    { apply stripNonDigits_fixes_digits. now rewrite allChars_append, Hcc. }
    assert (E3 : normalizeNumber (String c1 cc') (String c1 cc' ++ raw)
                 = Some (String c1 cc' ++ (String c1 cc' ++ raw))).
    { rewrite <- Es at 2. apply normalizeNumber_prefixed; [|discriminate].
      rewrite Es, length_append. unfold raw.
      cbn [String.length] in Hshort |- *. clear - Hshort. lia. }
    rewrite E3 in E2. inversion E2 as [E4].
    apply (f_equal String.length) in E4.
    unfold raw in E4. rewrite !length_append in E4.
    cbn [String.length] in E4. rewrite !length_append in E4.
    cbn [String.length] in E4. clear - E4. lia.
  - intros Hok raw n E.
    destruct (normalizeNumber_some _ _ _ E) as [[En [H8 H11]]|[En [H8 Hne]]];
      subst n.
    + apply normalizeNumber_kept;
        [apply stripNonDigits_digits | exact H8 | exact H11].
    + destruct Hok as [Hempty|H3]; [contradiction|].
      apply normalizeNumber_kept.
      * now rewrite allChars_append, Hcc, stripNonDigits_digits.
      * rewrite length_append. lia.
      * left. rewrite length_append. lia.
Qed.

Lemma normalizeNumber_idempotent_iff_witness :
  normalizeNumber "593" "099 123 4567" = Some "5930991234567" /\
  normalizeNumber "593" "5930991234567" = Some "5930991234567".
Proof.
  split; [reflexivity|].
  apply (proj2 (normalizeNumber_idempotent_iff (Some "593"))
               (or_intror (le_n 3)) "099 123 4567").
  reflexivity.
Defined.

(* ------------------------------------------------------------------ *)
(** ** Retry executor, continued *)

Section RetryRuns.

Context {W A : Type} `{Collaborators W}.
Variable fn : M W A.
Variable label : string.

Lemma retryLoop_runs (remaining : nat) :
  forall attempt lastErr s,
    (exists errs s1 v s',
        List.length errs < remaining /\
        failsInARow fn label attempt s errs s1 /\
        fn s1 = (Ret v, s') /\
        retryLoop fn label remaining attempt lastErr s = (Ret v, s')) \/
    (exists errs s',
        List.length errs = remaining /\
        failsInARow fn label attempt s errs s' /\
        retryLoop fn label remaining attempt lastErr s
        = (Throw (List.last errs lastErr), s')).
Proof.
  induction remaining as [|r IH]; intros attempt lastErr s.
  - right. exists [], s. repeat split.
  - cbn [retryLoop]. unfold tryCatch.
    destruct (fn s) as [[v|e] t] eqn:E.
    + left. exists [], s, v, t. repeat split; [cbn; lia | exact E].
    + unfold bind at 1. rewrite afterFailure_run.
      destruct (IH (S attempt) e
                   (snd (afterFailure label attempt e t)))
        as [[errs [s1 [v [s' [Hl [Hf [Hok Hrun]]]]]]]|[errs [s' [Hl [Hf Hrun]]]]];
        rewrite afterFailure_run in Hrun; cbn [snd] in Hrun.
      * left. exists (e :: errs), s1, v, s'. repeat split.
        -- cbn. lia.
        -- cbn [failsInARow]. exists t. split; [exact E | exact Hf].
        -- exact Hok.
        -- exact Hrun.
      * right. exists (e :: errs), s'. repeat split.
        -- cbn. lia.
        -- cbn [failsInARow]. exists t. split; [exact E | exact Hf].
        -- rewrite last_cons. exact Hrun.
Qed.

(** X4. Every run of [withRetries] is one of two: the operation threw on
    fewer than three consecutive invocations and then returned, and its value
    is returned; or it threw on three, and the third error is thrown.  An
    error comes out only after the whole budget was spent. *)
Theorem withRetries_runs (s : St W) :
  (exists errs s1 v s',
      List.length errs < MAX_RETRIES /\
      failsInARow fn label 0 s errs s1 /\
      fn s1 = (Ret v, s') /\
      withRetries fn label s = (Ret v, s')) \/
  (exists errs s',
      List.length errs = MAX_RETRIES /\
      failsInARow fn label 0 s errs s' /\
      withRetries fn label s = (Throw (List.last errs ThrownUndefined), s')).
Proof. apply retryLoop_runs. Qed.

End RetryRuns.

Section RetryCalls.

Context {W A : Type} `{Collaborators W}.
Variable c : Call.
Variable op : W -> Res A * W.
Variable label : string.

Lemma retryLoop_call_step (r attempt : nat) (lastErr : Thrown) (s : St W) :
  retryLoop (call c op) label (S r) attempt lastErr s
  = match op (world s) with
    | (Ret v, w) =>
        (Ret v, mkSt w (session s) (trace s ++ [EvCall c])%list (results s))
    | (Throw e, w) =>
        retryLoop (call c op) label r (S attempt) e
          (mkSt (elapse (backoffDelay attempt) w) (session s)
                (((trace s ++ [EvCall c])
                    ++ [EvWarn (retryWarning label attempt e)])
                   ++ [EvSleep (backoffDelay attempt)])%list
                (results s))
    end.
Proof.
  cbn [retryLoop]. unfold tryCatch. unfold call at 1.
  destruct (op (world s)) as [[v|e] w]; [reflexivity|].
  unfold bind at 1. rewrite afterFailure_run. reflexivity.
Qed.

Lemma retried_call_counts (remaining : nat) :
  forall attempt lastErr s,
    let r := retryLoop (call c op) label remaining attempt lastErr s in
    exists k,
      callsOf (trace (snd r)) = (callsOf (trace s) ++ repeat c k)%list /\
      match fst r with
      | Ret _ =>
          1 <= k <= remaining /\
          sleepsOf (trace (snd r))
          = (sleepsOf (trace s) ++ map backoffDelay (seq attempt (k - 1)))%list
      | Throw _ =>
          k = remaining /\
          sleepsOf (trace (snd r))
          = (sleepsOf (trace s) ++ map backoffDelay (seq attempt k))%list
      end.
Proof.
  induction remaining as [|r IH]; intros attempt lastErr s; cbv zeta.
  - exists 0. cbn. rewrite !app_nil_r. repeat split.
  - rewrite retryLoop_call_step.
    destruct (op (world s)) as [[v|e] w] eqn:E.
    + exists 1. cbn [fst snd trace]. rewrite callsOf_app, sleepsOf_app. cbn.
      rewrite !app_nil_r. repeat split; lia.
    + match goal with
      | |- context [retryLoop _ _ _ _ _ ?st] =>
          destruct (IH (S attempt) e st) as [k [Hc Hrest]]
      end.
      cbv zeta in Hc, Hrest. cbn [trace] in Hc, Hrest.
      exists (S k). split.
      * rewrite Hc, !callsOf_app. cbn [callsOf repeat].
        repeat rewrite <- app_assoc. reflexivity.
      * destruct (fst (retryLoop (call c op) label r (S attempt) e _)).
        -- destruct Hrest as [Hk Hs]. split; [lia|].
           rewrite Hs, !sleepsOf_app. cbn [sleepsOf].
           repeat rewrite <- app_assoc. cbn [app].
           replace (S k - 1) with (S (k - 1)) by lia. reflexivity.
        -- destruct Hrest as [Hk Hs]. split; [lia|].
           rewrite Hs, !sleepsOf_app. cbn [sleepsOf].
           repeat rewrite <- app_assoc. reflexivity.
Qed.

(** X5. A collaborator call wrapped in [withRetries] is made at least once
    and at most three times.  If the wrapper returns after [k] calls it has
    slept [k - 1] times, for 500, 1000, ... ms; if it throws it has made all
    three calls and slept 500, 1000 and 2000 ms, the last of them after the
    final failure. *)
Theorem retried_call_budget (s : St W) :
  let r := withRetries (call c op) label s in
  exists k,
    callsOf (trace (snd r)) = (callsOf (trace s) ++ repeat c k)%list /\
    match fst r with
    | Ret _ =>
        1 <= k <= 3 /\
        sleepsOf (trace (snd r))
        = (sleepsOf (trace s) ++ firstn (k - 1) [500; 1000; 2000]%Z)%list
    | Throw _ =>
        k = 3 /\
        sleepsOf (trace (snd r))
        = (sleepsOf (trace s) ++ [500; 1000; 2000]%Z)%list
    end.
Proof.
  cbv zeta. unfold withRetries.
  destruct (retried_call_counts MAX_RETRIES 0 ThrownUndefined s) as [k [Hc Hr]].
  cbv zeta in Hc, Hr. exists k. split; [exact Hc|].
  destruct (fst (retryLoop (call c op) label MAX_RETRIES 0 ThrownUndefined s)).
  - destruct Hr as [Hk Hs]. unfold MAX_RETRIES in Hk. split; [exact Hk|].
    rewrite Hs. f_equal.
    destruct k as [|[|[|[|k]]]]; try lia; reflexivity.
  - destruct Hr as [Hk Hs]. split; [exact Hk|]. rewrite Hs, Hk. reflexivity.
Qed.

End RetryCalls.

(* ------------------------------------------------------------------ *)
(** ** Media resolver, continued *)

Section MediaErrors.

Context {W : Type} `{Collaborators W}.
Variable cfg : Config.

Lemma buildMediaFromUrl_throws (url : string) (s t : St W) (e : Thrown) :
  buildMediaFromUrl cfg url s = (Throw e, t) ->
  exists e1 w1 e2,
    MessageMedia_fromUrl url true FROM_URL_TIMEOUT_MS (world s) = (Throw e1, w1) /\
    axios_get url (axiosConfig cfg) w1 = (Throw e2, world t) /\
    e = newError ("No se pudo descargar la imagen: " ++ errText e2) /\
    callsOf (trace t)
    = (callsOf (trace s)
         ++ [CallFromUrl url true FROM_URL_TIMEOUT_MS;
             CallAxiosGet url (axiosConfig cfg)])%list.
Proof.
  intros E.
  destruct (MessageMedia_fromUrl url true FROM_URL_TIMEOUT_MS (world s))
    as [[m|e1] w1] eqn:E1.
  - exfalso. unfold buildMediaFromUrl, tryCatch, call in E. rewrite E1 in E.
    discriminate.
  - rewrite (buildMediaFromUrl_primary_throws cfg url s e1 w1 E1) in E.
    rewrite manualDownload_run in E. cbv zeta in E.
    cbn [world trace session results] in E.
    destruct (axios_get url (axiosConfig cfg) w1) as [[resp|e2] w2] eqn:E2;
      [discriminate|].
    injection E as Ee Et. subst e t. exists e1, w1, e2. cbn [world trace].
    split; [reflexivity|]. split; [exact E2|]. split; [reflexivity|].
    rewrite !callsOf_app. cbn [callsOf].
    repeat rewrite <- app_assoc. reflexivity.
Qed.

(** X6. [buildMediaFromUrl] throws only after both paths have thrown, one
    call each and in that order, and what it throws is a new [Error] whose
    message is [No se pudo descargar la imagen: ] followed by the text of
    the download's error; the error of the primary path is only logged. *)
Theorem buildMediaFromUrl_error (url : string) (s : St W) (e : Thrown) :
  fst (buildMediaFromUrl cfg url s) = Throw e ->
  exists e1 w1 e2,
    MessageMedia_fromUrl url true FROM_URL_TIMEOUT_MS (world s) = (Throw e1, w1) /\
    fst (axios_get url (axiosConfig cfg) w1) = Throw e2 /\
    e = ErrorObj "Error" ("No se pudo descargar la imagen: " ++ errText e2) /\
    callsOf (trace (snd (buildMediaFromUrl cfg url s)))
    = (callsOf (trace s)
         ++ [CallFromUrl url true FROM_URL_TIMEOUT_MS;
             CallAxiosGet url (axiosConfig cfg)])%list.
Proof.
  intros E. destruct (buildMediaFromUrl cfg url s) as [r t] eqn:R.
  cbn [fst] in E. subst r.
  destruct (buildMediaFromUrl_throws url s t e R) as [e1 [w1 [e2 [E1 [E2 [Ee Ec]]]]]].
  exists e1, w1, e2. rewrite E2. repeat split; assumption.
Qed.


End MediaErrors.

(* ------------------------------------------------------------------ *)
(** ** API surface, continued *)

Lemma delivered_or_failed (rs : list ResultEntry) :
  List.length (filter isDelivered rs) + List.length (filter isFailed rs)
  = List.length rs.
Proof.
  induction rs as [|r rs IH]; [reflexivity|].
  cbn [filter]. unfold isDelivered at 1, isFailed at 1.
  destruct (status r); cbn [List.length]; lia.
Qed.

Section ApiRuns.

Context {W : Type} `{Collaborators W}.
Variable cfg : Config.

(** The dispatch starts from an empty [results] array and reports it. *)
Lemma dispatchAndReport_run (media : option MessageMedia)
    (caption text : option string) (recipients : list string) (s : St W) :
  exists rs s',
    dispatchAndReport cfg media caption text recipients s
    = (Ret (summaryResponse rs), s') /\
    List.length rs = List.length recipients /\
    Forall2 (answers cfg) recipients rs.
Proof.
  unfold dispatchAndReport. unfold bind at 1. cbn [newResults].
  set (s0 := mkSt (world s) (session s) (trace s) []).
  destruct (dispatchLoop_run cfg media caption text recipients s0)
    as [added [Hr [Hres [Hlen Hall]]]].
  unfold bind at 1.
  destruct (dispatchLoop cfg media caption text recipients s0) as [r s1].
  cbn [fst snd] in Hr, Hres. subst r. cbn [results s0 app] in Hres.
  unfold bind, getResults, ret. rewrite Hres.
  exists added, s1. repeat split; assumption.
Qed.

Lemma resolveMedia_run (image : option string) (s : St W) :
  exists r s1,
    resolveMedia cfg image s = (Ret r, s1) /\
    match r with
    | inl early => code early = 400
    | inr _ => True
    end.
Proof.
  unfold resolveMedia. destruct image as [url|];
    [|exists (inr None), s; split; [reflexivity | exact I]].
  destruct (Str.truthy url);
    [|exists (inr None), s; split; [reflexivity | exact I]].
  unfold tryCatch, bind.
  destruct (withRetries (buildMediaFromUrl cfg url) "buildMediaFromUrl" s)
    as [[m|err] s1].
  - exists (inr (Some m)), s1. split; [reflexivity | exact I].
  - eexists. exists s1. split; [reflexivity | reflexivity].
Qed.

(** The handler, step by step. *)
Lemma postSendWhatsapp_run (reqBody : option Body) (s : St W) :
  postSendWhatsapp cfg reqBody s
  = let b := bodyOrEmpty reqBody in
    match numbers b with
    | None | Some [] =>
        (Ret (errorResponse 400 "Faltan parámetros: numbers[]" None), s)
    | Some recipients =>
        if negb (clientReady (session s)) then
          (Ret (errorResponse 503 "El cliente de WhatsApp aún no está listo."
                              None), s)
        else if negb (present (imageUrl b)) && negb (present (text b)) then
          (Ret (errorResponse 400 "Debes enviar imageUrl o text." None), s)
        else
          match resolveMedia cfg (imageUrl b) s with
          | (Ret (inl early), s1) => (Ret early, s1)
          | (Ret (inr media), s1) =>
              dispatchAndReport cfg media (caption b) (text b) recipients s1
          | (Throw e, s1) => (Throw e, s1)
          end
    end.
Proof.
  unfold postSendWhatsapp. cbv zeta.
  destruct (numbers (bodyOrEmpty reqBody)) as [[|r0 rest]|]; try reflexivity.
  unfold bind at 1. unfold getClientReady.
  destruct (clientReady (session s)); cbn [negb]; [|reflexivity].
  destruct (negb (present (imageUrl (bodyOrEmpty reqBody)))
            && negb (present (text (bodyOrEmpty reqBody)))); [reflexivity|].
  unfold bind at 1.
  destruct (resolveMedia cfg (imageUrl (bodyOrEmpty reqBody)) s)
    as [[[early|media]|e] s1]; reflexivity.
Qed.

(** The three ways the handler ends. *)
Lemma postSendWhatsapp_cases (reqBody : option Body) (s : St W) :
  (exists msg detail s',
      postSendWhatsapp cfg reqBody s = (Ret (errorResponse 400 msg detail), s')) \/
  (exists msg,
      clientReady (session s) = false /\
      postSendWhatsapp cfg reqBody s = (Ret (errorResponse 503 msg None), s)) \/
  (exists recipients rs s',
      numbers (bodyOrEmpty reqBody) = Some recipients /\
      clientReady (session s) = true /\
      postSendWhatsapp cfg reqBody s = (Ret (summaryResponse rs), s') /\
      List.length rs = List.length recipients /\
      Forall2 (answers cfg) recipients rs).
Proof.
  rewrite postSendWhatsapp_run. cbv zeta.
  destruct (numbers (bodyOrEmpty reqBody)) as [[|r0 rest]|] eqn:En;
    try (left; eexists; eexists; eexists; reflexivity).
  destruct (clientReady (session s)) eqn:Er; cbn [negb];
    [|right; left; eexists; split; reflexivity].
  destruct (negb (present (imageUrl (bodyOrEmpty reqBody)))
            && negb (present (text (bodyOrEmpty reqBody))));
    [left; eexists; eexists; eexists; reflexivity|].
  destruct (resolveMedia_run (imageUrl (bodyOrEmpty reqBody)) s)
    as [r [s1 [Hr Hcode]]].
  rewrite Hr. destruct r as [early|media].
  - left. destruct early as [c p]. cbn [code] in Hcode. subst c.
    destruct p as [msg detail|summary detail].
    + exists msg, detail, s1. reflexivity.
    + exfalso. revert Hr. unfold resolveMedia.
      destruct (imageUrl (bodyOrEmpty reqBody)) as [url|]; [|discriminate].
      destruct (Str.truthy url); [|discriminate].
      unfold tryCatch, bind.
      destruct (withRetries (buildMediaFromUrl cfg url) "buildMediaFromUrl" s)
        as [[m|err] s2]; discriminate.
  - right. right.
    destruct (dispatchAndReport_run media (caption (bodyOrEmpty reqBody))
                (text (bodyOrEmpty reqBody)) (r0 :: rest) s1)
      as [rs [s' [Hrun [Hlen Hall]]]].
    exists (r0 :: rest), rs, s'. repeat split; assumption.
Qed.


(** X8. A 200 answer is given only to a request with recipients made while
    the session is ready, and its detail has one entry per recipient, in
    order, whatever the [results] of an earlier request were; the two counts
    of its summary line add up to the number of recipients. *)
Theorem ok_response_shape (reqBody : option Body) (s : St W) (resp : Response) :
  fst (postSendWhatsapp cfg reqBody s) = Ret resp ->
  code resp = 200 ->
  exists recipients rs,
    numbers (bodyOrEmpty reqBody) = Some recipients /\
    clientReady (session s) = true /\
    payload resp
    = SendBody ("Mensajes enviados: "
                ++ Str.ofNat (List.length (filter isDelivered rs))
                ++ ", fallidos: "
                ++ Str.ofNat (List.length (filter isFailed rs))) rs /\
    Forall2 (answers cfg) recipients rs /\
    List.length (filter isDelivered rs) + List.length (filter isFailed rs)
    = List.length recipients.
Proof.
  intros E Hc.
  destruct (postSendWhatsapp_cases reqBody s)
    as [[msg [detail [s' E']]]|[[msg [_ E']]|[recipients [rs [s' [Hn [Hr [E' [Hl Ha]]]]]]]]];
    rewrite E' in E; cbn [fst] in E; injection E as <-;
    try (cbn in Hc; discriminate).
  exists recipients, rs. repeat split; try assumption.
  now rewrite delivered_or_failed.
Qed.

End ApiRuns.

(** The scenario of one ten-digit recipient and a text, session ready. *)
Lemma ok_response_shape_witness :
  let b := {| numbers := Some ["3001234567"]; imageUrl := None;
              caption := None; text := Some "hi" |} in
  let s := Scripted.start true
             (Scripted.script [] [] [Scripted.account "573001234567"]
                              [Ret tt] [Ret tt]) in
  fst (postSendWhatsapp Scripted.cfg57 (Some b) s)
  = Ret (summaryResponse [sentEntry "573001234567"]) /\
  exists recipients rs,
    numbers b = Some recipients /\
    clientReady (session s) = true /\
    payload (summaryResponse [sentEntry "573001234567"])
    = SendBody ("Mensajes enviados: "
                ++ Str.ofNat (List.length (filter isDelivered rs))
                ++ ", fallidos: "
                ++ Str.ofNat (List.length (filter isFailed rs))) rs /\
    Forall2 (answers Scripted.cfg57) recipients rs /\
    List.length (filter isDelivered rs) + List.length (filter isFailed rs)
    = List.length recipients.
Proof.
  intros b s. split; [vm_compute; reflexivity|].
  apply (ok_response_shape Scripted.cfg57 (Some b) s
           (summaryResponse [sentEntry "573001234567"]));
    [vm_compute; reflexivity | reflexivity].
Defined.

Section MediaFailure.

Context {W : Type} `{Collaborators W}.
Variable cfg : Config.


End MediaFailure.


(* ------------------------------------------------------------------ *)
(** ** Bulk dispatcher, continued *)

Section DispatcherBounds.

Context {W : Type} `{Collaborators W}.
Variable cfg : Config.
Variable media : option MessageMedia.
Variable caption text : option string.

(** X10. Recipients that do not normalize cost nothing: a batch made of
    such recipients only is answered without a single collaborator call,
    sleep or console line, each entry [failed] with [Número inválido] and the
    raw string as its number. *)
Theorem invalid_batch_is_free (recipients : list string) :
  Forall (fun raw => normalizeNumber (DEFAULT_COUNTRY_CODE cfg) raw = None)
         recipients ->
  forall s,
    let s' := snd (dispatchLoop cfg media caption text recipients s) in
    untouched s s' /\
    results s'
    = (results s
         ++ map (fun raw => failedEntry raw "Número inválido") recipients)%list.
Proof.
  induction recipients as [|raw rest IH]; intros Hall s; cbv zeta.
  - cbn. rewrite app_nil_r. repeat split.
  - inversion Hall as [|? ? Hraw Hrest]. subst.
    rewrite dispatchLoop_cons.
    assert (E : processRecipient cfg media caption text raw s
                = push (failedEntry raw "Número inválido") s).
    { unfold processRecipient. now rewrite Hraw. }
    rewrite E. cbn [push snd].
    destruct (IH Hrest (mkSt (world s) (session s) (trace s)
                             (results s ++ [failedEntry raw "Número inválido"])%list))
      as [[Hw Ht] Hr].
    cbn [world trace results] in Hw, Ht, Hr.
    split; [split; assumption|].
    rewrite Hr, <- app_assoc. reflexivity.
Qed.

Lemma callsWithin_same (s s' : St W) : trace s' = trace s -> callsWithin 0 s s'.
Proof. intros E. exists []. split; [now rewrite app_nil_r | cbn; lia]. Qed.

Lemma callsWithin_trans (a b : nat) (s t u : St W) :
  callsWithin a s t -> callsWithin b t u -> callsWithin (a + b) s u.
Proof.
  intros [d1 [E1 L1]] [d2 [E2 L2]]. exists (d1 ++ d2)%list. split.
  - now rewrite E2, E1, app_assoc.
  - rewrite callsOf_app, length_app. lia.
Qed.

Lemma callsWithin_more (a b : nat) (s t : St W) :
  a <= b -> callsWithin a s t -> callsWithin b s t.
Proof. intros Hab [d [E L]]. exists d. split; [exact E | lia]. Qed.

Lemma atMostCalls_more {A} (a b : nat) (m : M W A) :
  a <= b -> atMostCalls a m -> atMostCalls b m.
Proof. intros Hab Hm s. eapply callsWithin_more; [exact Hab | apply Hm]. Qed.

Lemma atMostCalls_bind {A B} (a b : nat) (m : M W A) (k : A -> M W B) :
  atMostCalls a m -> (forall x, atMostCalls b (k x)) ->
  atMostCalls (a + b) (bind m k).
Proof.
  intros Hm Hk s. unfold bind. pose proof (Hm s) as Hs.
  destruct (m s) as [[x|e] s1]; cbn [snd] in *.
  - eapply callsWithin_trans; [exact Hs | apply Hk].
  - eapply callsWithin_more; [|exact Hs]. lia.
Qed.

Lemma atMostCalls_tryCatch {A} (a b : nat) (m : M W A) (h : Thrown -> M W A) :
  atMostCalls a m -> (forall e, atMostCalls b (h e)) ->
  atMostCalls (a + b) (tryCatch m h).
Proof.
  intros Hm Hh s. unfold tryCatch. pose proof (Hm s) as Hs.
  destruct (m s) as [[x|e] s1]; cbn [snd] in *.
  - eapply callsWithin_more; [|exact Hs]. lia.
  - eapply callsWithin_trans; [exact Hs | apply Hh].
Qed.

Lemma atMostCalls_quiet {A} (m : M W A) :
  (forall s, trace (snd (m s)) = trace s) -> atMostCalls 0 m.
Proof. intros Hq s. apply callsWithin_same, Hq. Qed.

Lemma atMostCalls_console (e : Event) :
  match e with EvCall _ => False | _ => True end -> atMostCalls 0 (@emit W e).
Proof.
  intros He s. exists [e]. split; [reflexivity|].
  destruct e; cbn in *; solve [lia | contradiction].
Qed.

Lemma atMostCalls_sleep (ms : Z) : atMostCalls 0 (sleep ms).
Proof. intros s. exists [EvSleep ms]. split; [reflexivity | cbn; lia]. Qed.

Lemma atMostCalls_call {A} (c : Call) (op : W -> Res A * W) :
  atMostCalls 1 (call c op).
Proof.
  intros s. exists [EvCall c]. unfold call.
  destruct (op (world s)) as [r w]. split; [reflexivity | cbn; lia].
Qed.

Lemma atMostCalls_retryLoop {A} (c : Call) (op : W -> Res A * W)
    (label : string) (remaining : nat) :
  forall attempt lastErr,
    atMostCalls remaining (retryLoop (call c op) label remaining attempt lastErr).
Proof.
  induction remaining as [|r IH]; intros attempt lastErr.
  - apply atMostCalls_quiet. reflexivity.
  - cbn [retryLoop]. change (S r) with (1 + r).
    apply atMostCalls_tryCatch; [apply atMostCalls_call|].
    intros e. change r with (0 + r). apply atMostCalls_bind.
    + change 0 with (0 + 0). apply atMostCalls_bind.
      * now apply atMostCalls_console.
      * intros _. apply atMostCalls_sleep.
    + intros _. apply IH.
Qed.

Lemma atMostCalls_retried {A} (c : Call) (op : W -> Res A * W) (label : string) :
  atMostCalls 3 (withRetries (call c op) label).
Proof. apply (atMostCalls_retryLoop c op label MAX_RETRIES). Qed.

Lemma sendContent_atMost (chatId : string) :
  atMostCalls 3 (sendContent media caption text chatId).
Proof.
  unfold sendContent. destruct media as [m|]; [apply atMostCalls_retried|].
  destruct text as [t|].
  - destruct (Str.truthy t); [apply atMostCalls_retried|].
    apply (atMostCalls_more 0); [lia | now apply atMostCalls_quiet].
  - apply (atMostCalls_more 0); [lia | now apply atMostCalls_quiet].
Qed.

Lemma processRecipient_atMost (raw : string) :
  atMostCalls 7 (processRecipient cfg media caption text raw).
Proof.
  unfold processRecipient.
  destruct (normalizeNumber (DEFAULT_COUNTRY_CODE cfg) raw) as [n|].
  - change 7 with (7 + 0). apply atMostCalls_tryCatch.
    + unfold lookupAndSend. change 7 with (3 + 4).
      apply atMostCalls_bind; [apply atMostCalls_retried|].
      intros [id|].
      * change 4 with (1 + 3). apply atMostCalls_bind.
        -- change 1 with (1 + 0). apply atMostCalls_tryCatch;
             [apply atMostCalls_call|].
           intros _. now apply atMostCalls_quiet.
        -- intros _. change 3 with (3 + 0). apply atMostCalls_bind;
             [|intros _; apply atMostCalls_sleep].
           change 3 with (3 + 0). apply atMostCalls_tryCatch.
           ++ change 3 with (3 + 0). apply atMostCalls_bind;
                [apply sendContent_atMost|].
              intros _. change 0 with (0 + 0). apply atMostCalls_bind;
                [now apply atMostCalls_console|].
              intros _. now apply atMostCalls_quiet.
           ++ intros e. unfold onSendError.
              destruct (Str.includes "getMessageModel" (errText e)
                        || Str.includes "serialize" (errText e));
                (change 0 with (0 + 0); apply atMostCalls_bind;
                 [now apply atMostCalls_console
                 |intros _; now apply atMostCalls_quiet]).
      * apply (atMostCalls_more 0); [lia | now apply atMostCalls_quiet].
    + intros e. change 0 with (0 + 0). apply atMostCalls_bind;
        [now apply atMostCalls_console|].
      intros _. now apply atMostCalls_quiet.
  - apply (atMostCalls_more 0); [lia | now apply atMostCalls_quiet].
Qed.

(** X11. A batch of [N] recipients costs at most [7 * N] collaborator
    calls: per recipient at most three lookups, one pre-warm and three
    sends. *)
Theorem dispatch_call_budget (recipients : list string) :
  atMostCalls (7 * List.length recipients)
              (dispatchLoop cfg media caption text recipients).
Proof.
  induction recipients as [|raw rest IH].
  - apply atMostCalls_quiet. reflexivity.
  - cbn [dispatchLoop List.length].
    replace (7 * S (List.length rest)) with (7 + 7 * List.length rest) by lia.
    apply atMostCalls_bind; [apply processRecipient_atMost|].
    intros _. exact IH.
Qed.

(** X12. The pre-warm never fails a recipient: it always returns, and when
    the lookup found an account and the send made after the pre-warm
    returned, the entry recorded is [sent]. *)
Theorem prewarm_is_best_effort (raw n : string) (id : NumberId) (s : St W) :
  normalizeNumber (DEFAULT_COUNTRY_CODE cfg) raw = Some n ->
  fst (lookup n s) = Ret (Some id) ->
  fst (sendContent media caption text (_serialized id)
         (snd (prewarm (_serialized id) (snd (lookup n s))))) = Ret tt ->
  (forall chatId t, fst (prewarm chatId t) = Ret tt) /\
  fst (processRecipient cfg media caption text raw s) = Ret tt /\
  results (snd (processRecipient cfg media caption text raw s))
  = (results s ++ [{| number := n; status := sent; reason := None;
                      warning := None |}])%list.
Proof.
  intros E L S. split; [intros chatId t; apply prewarm_returns|].
  destruct (processRecipient_run cfg media caption text raw s) as [Hr Hres].
  split; [exact Hr|]. rewrite Hres. f_equal. f_equal.
  unfold recordedOutcome. rewrite E.
  destruct (lookup n s) as [r s1]. cbn [fst snd] in L, S. subst r.
  destruct (sendContent media caption text (_serialized id)
                        (snd (prewarm (_serialized id) s1))) as [r3 s3].
  cbn [fst] in S. subst r3. reflexivity.
Qed.

End DispatcherBounds.

(* ------------------------------------------------------------------ *)
(** ** Connection lifecycle manager, continued *)

Module SupervisionFacts.
Import Lifecycle Supervision.

Ltac open_record m :=
  destruct m as [[ready cState timer cQr cQrAt init] r con arm next fl sl];
  cbn in *.

Ltac crunch :=
  cbv beta iota zeta delta
    [concluded say withVars setInitializing setReady setTimer setInterval
     tick wake initClient began scheduleReconnect
     vars retries console armed nextHandle inFlight sleeping
     clientReady initializing reconnectTimer existsb negb orb].

Lemma initializations_say (e : Event) (m : Machine) :
  initializations (say e m)
  = initializations m + (if isInitLine e then 1 else 0).
Proof.
  unfold initializations, say. cbn [console].
  rewrite filter_app, length_app. cbn [filter].
  destruct (isInitLine e); reflexivity.
Qed.

Lemma step_keeps_flag (m : Machine) (s : Step) :
  initializing (vars m) = true -> lowersFlag s = false ->
  initializing (vars (step m s)) = true /\
  initializations (step m s) = initializations m.
Proof.
  intros Hi Hs. destruct s as [| |h| | | | |q now|st|[|] err];
    try discriminate Hs; cbn [step].
  - unfold initClient. rewrite Hi. now split.
  - unfold scheduleReconnect. destruct (reconnectTimer (vars m)); [now split|].
    open_record m. now split.
  - unfold tick. destruct (negb (existsb (Nat.eqb h) (armed m))); [now split|].
    rewrite Hi, orb_true_r. now split.
  - unfold wake. destruct (sleeping m) as [|k] eqn:E; [now split|].
    unfold initClient. cbn [vars]. rewrite Hi. open_record m. now split.
  - unfold onQr. rewrite initializations_say. open_record m. split; [exact Hi|].
    unfold initializations. cbn. lia.
  - unfold onChangeState. rewrite initializations_say.
    open_record m. split; [exact Hi|]. unfold initializations. cbn. lia.
  - unfold onInitRejected. rewrite initializations_say.
    open_record m. split; [exact Hi|]. unfold initializations. cbn. lia.
Qed.

(** X13. Only [ready], [auth_failure], [disconnected] and the start-up
    [.catch] lower the flag.  While it is up, nothing else that happens,
    a rejected [client.initialize()] inside the supervisor included, lets
    [client.initialize()] be called again: every firing of the supervisor
    returns at its guard. *)
Theorem flag_up_blocks_supervisor (steps : list Step) :
  forall m,
    initializing (vars m) = true ->
    forallb (fun s => negb (lowersFlag s)) steps = true ->
    let m' := fold_left step steps m in
    initializing (vars m') = true /\
    initializations m' = initializations m /\
    (forall h, tick h m' = m').
Proof.
  induction steps as [|s steps IH]; intros m Hi Hall; cbv zeta.
  - cbn [fold_left]. repeat split; [exact Hi|].
    intros h. unfold tick. destruct (negb (existsb (Nat.eqb h) (armed m)));
      [reflexivity|]. now rewrite Hi, orb_true_r.
  - cbn [forallb] in Hall. apply andb_true_iff in Hall as [Hs Hall].
    apply negb_true_iff in Hs.
    destruct (step_keeps_flag m s Hi Hs) as [Hi' Hn'].
    cbn [fold_left]. destruct (IH (step m s) Hi' Hall) as [H1 [H2 H3]].
    repeat split; [exact H1 | now rewrite H2 | exact H3].
Qed.

(** After the boot initialization was rejected inside a supervisor firing,
    firings and resumptions change nothing. *)
Lemma flag_up_blocks_supervisor_witness :
  let stuck := run [Disconnected "NAVIGATION"; Fire 0; Wake;
                    InitRejected false (newError "browser crashed")] in
  initializing (vars stuck) = true /\
  initializations (fold_left step [Fire 0; Wake; Fire 0; Wake; CallInitClient] stuck)
  = initializations stuck.
Proof.
  intros stuck. split; [reflexivity|].
  apply (flag_up_blocks_supervisor [Fire 0; Wake; Fire 0; Wake; CallInitClient]
           stuck); reflexivity.
Defined.

Lemma lost_then_retried (e : Event) (m : Machine) :
  consistent m ->
  let m1 := scheduleReconnect
              (concluded
                 (say e (withVars (fun v => setInitializing false
                                              (setReady false v)) m))) in
  clientReady (vars m1) = false /\
  initializing (vars m1) = false /\
  exists h,
    reconnectTimer (vars m1) = Some h /\
    armed m1 = [h] /\
    let m3 := wake (tick h m1) in
    initializing (vars m3) = true /\
    inFlight m3 = 1 /\
    console m3
    = (console m1
         ++ [EvWarn ("Intentando reconectar (reintento #"
                     ++ Str.ofNat (S (retries m1)) ++ ") en "
                     ++ Str.ofZ (reconnectDelay (S (retries m1))) ++ "ms...");
             EvSleep (reconnectDelay (S (retries m1)));
             EvLog "Inicializando cliente de WhatsApp..."])%list.
Proof.
  unfold consistent. intros [Hf Ha].
  destruct m as [[ready cState timer cQr cQrAt init] r con arm next fl sl].
  cbn [vars inFlight armed initializing reconnectTimer] in Hf, Ha.
  assert (Hfl : Nat.pred fl = 0) by (destruct init; lia).
  destruct timer as [h|]; subst arm; crunch.
  - repeat split. exists h. repeat split; crunch; rewrite Nat.eqb_refl; crunch.
    + reflexivity.
    + now rewrite Hfl.
    + now rewrite <- !app_assoc.
  - repeat split. exists next.
    repeat split; crunch; rewrite Nat.eqb_refl; crunch.
    + reflexivity.
    + now rewrite Hfl.
    + now rewrite <- !app_assoc.
Qed.

Lemma run_snoc (steps : list Step) (s : Step) :
  run (steps ++ [s]) = step (run steps) s.
Proof. unfold run. now rewrite fold_left_app. Qed.

(** X14. Whenever the session is lost, by [disconnected] or by
    [auth_failure], the session is marked unusable, exactly one supervisor
    is armed, and its next firing followed by its resumption starts one
    initialization, after the capped back-off sleep. *)
Theorem lost_session_is_retried (steps : list Step) (why : string) :
  forall lost, lost = Disconnected why \/ lost = AuthFailure why ->
  let m1 := run (steps ++ [lost]) in
  clientReady (vars m1) = false /\
  initializing (vars m1) = false /\
  exists h,
    reconnectTimer (vars m1) = Some h /\
    armed m1 = [h] /\
    let m3 := step (step m1 (Fire h)) Wake in
    initializing (vars m3) = true /\
    inFlight m3 = 1 /\
    initializations m3 = S (initializations m1) /\
    sleepsOf (console m3)
    = (sleepsOf (console m1) ++ [reconnectDelay (S (retries m1))])%list.
Proof.
  intros lost Hlost. cbv zeta. rewrite run_snoc.
  pose proof (LifecycleFacts.run_consistent steps) as Hm.
  assert (E : exists e,
             step (run steps) lost
             = scheduleReconnect
                 (concluded
                    (say e (withVars (fun v => setInitializing false
                                                 (setReady false v))
                                     (run steps))))).
  { destruct Hlost as [-> | ->]; eexists; reflexivity. }
  destruct E as [e E]. rewrite E.
  destruct (lost_then_retried e (run steps) Hm)
    as [Hr [Hi [h [Ht [Ha [Hi3 [Hf3 Hc3]]]]]]].
  split; [exact Hr|]. split; [exact Hi|]. exists h.
  split; [exact Ht|]. split; [exact Ha|]. cbn [step].
  split; [exact Hi3|]. split; [exact Hf3|]. split.
  - unfold initializations. rewrite Hc3, filter_app, length_app. cbn. lia.
  - rewrite Hc3, sleepsOf_app. reflexivity.
Qed.

Lemma lost_session_is_retried_witness :
  let m1 := run [Ready; Disconnected "NAVIGATION"] in
  let m3 := step (step m1 (Fire 0)) Wake in
  reconnectTimer (vars m1) = Some 0 /\
  initializing (vars m3) = true /\ inFlight m3 = 1 /\
  sleepsOf (console m3) = [1000%Z].
Proof.
  intros m1 m3.
  destruct (lost_session_is_retried [Ready] "NAVIGATION"
              (Disconnected "NAVIGATION") (or_introl eq_refl))
    as [_ [_ [h [Ht [_ H3]]]]].
  repeat split; reflexivity.
Defined.

(** X15. The sleep of a supervisor firing is 1000 ms at the first retry,
    doubles up to the fifth, is 30 s from the sixth on, and so always ends
    before the interval of 35 s fires again. *)
Theorem reconnectDelay_bounds (r : nat) :
  1 <= r ->
  (1000 <= reconnectDelay r <= 30000)%Z /\
  (reconnectDelay r < 35000)%Z /\
  (r <= 5 -> reconnectDelay r = (500 * 2 ^ Z.of_nat r)%Z) /\
  (6 <= r -> reconnectDelay r = 30000%Z) /\
  (reconnectDelay r <= reconnectDelay (S r))%Z.
Proof.
  intros Hr. unfold reconnectDelay, backoffDelay, RETRY_BASE_MS.
  assert (P1 : (2 ^ 1 <= 2 ^ Z.of_nat r)%Z)
    by (apply Z.pow_le_mono_r; lia).
  assert (PS : (2 ^ Z.of_nat (S r) = 2 * 2 ^ Z.of_nat r)%Z)
    by (rewrite Nat2Z.inj_succ, Z.pow_succ_r; lia).
  change (2 ^ 1)%Z with 2%Z in P1.
  repeat split.
  - lia.
  - lia.
  - lia.
  - intros H5.
    assert (P5 : (2 ^ Z.of_nat r <= 2 ^ 5)%Z) by (apply Z.pow_le_mono_r; lia).
    change (2 ^ 5)%Z with 32%Z in P5. lia.
  - intros H6.
    assert (P6 : (2 ^ 6 <= 2 ^ Z.of_nat r)%Z) by (apply Z.pow_le_mono_r; lia).
    change (2 ^ 6)%Z with 64%Z in P6. lia.
  - rewrite PS. lia.
Qed.

Lemma reconnectDelay_bounds_witness :
  reconnectDelay 3 = 4000%Z /\ reconnectDelay 9 = 30000%Z.
Proof.
  destruct (reconnectDelay_bounds 3 ltac:(lia)) as [_ [_ [H3 _]]].
  destruct (reconnectDelay_bounds 9 ltac:(lia)) as [_ [_ [_ [H9 _]]]].
  split; [rewrite H3 by lia; reflexivity | apply H9; lia].
Defined.

Lemma step_keeps_qr (m : Machine) (s : Step) :
  (forall q now, s <> Qr q now) ->
  lastQr (vars (step m s)) = lastQr (vars m) /\
  lastQrAt (vars (step m s)) = lastQrAt (vars m).
Proof.
  intros Hs. destruct s as [| |h| | |msg|why|q now|st|[|] err]; cbn [step].
  - unfold initClient. destruct (initializing (vars m)); [now split|].
    open_record m. now split.
  - unfold scheduleReconnect. destruct (reconnectTimer (vars m)); [now split|].
    open_record m. now split.
  - unfold tick. destruct (negb (existsb (Nat.eqb h) (armed m))); [now split|].
    destruct (clientReady (vars m) || initializing (vars m)); [now split|].
    open_record m. now split.
  - unfold wake. destruct (sleeping m); [now split|].
    unfold initClient. cbn [vars]. destruct (initializing (vars m));
      open_record m; now split.
  - unfold onReady. open_record m. destruct timer; now split.
  - unfold onAuthFailure, scheduleReconnect. open_record m.
    destruct timer; now split.
  - unfold onDisconnected, scheduleReconnect. open_record m.
    destruct timer; now split.
  - now elim (Hs q now).
  - unfold onChangeState. open_record m. now split.
  - unfold onInitRejected, scheduleReconnect. open_record m.
    destruct timer; now split.
  - unfold onInitRejected. open_record m. now split.
Qed.

Lemma qr_paired (steps : list Step) :
  lastQr (vars (run steps)) = None <-> lastQrAt (vars (run steps)) = None.
Proof.
  induction steps as [|s steps IH] using rev_ind; [now split|].
  rewrite run_snoc.
  destruct s as [| |h| | |msg|why|q now|st|b err];
    try (match goal with
         | |- context [step _ ?s] =>
             destruct (step_keeps_qr (run steps) s) as [E1 E2];
             [intros q' now'; discriminate | now rewrite E1, E2]
         end).
  cbn [step]. unfold onQr. destruct (run steps) as [v r con arm next fl sl].
  cbn. split; discriminate.
Qed.

(** X16. [GET /qr] answers 404 until a non-empty QR has been received, and
    afterwards 200 with the QR received last and the time it was received,
    which is then never null and is the time [GET /status] reports. *)
Theorem qr_endpoint (toISOString : Z -> string) (cfg : Config)
    (steps : list Step) :
  let v := vars (run steps) in
  (fst (getQr toISOString v) = 404 <->
   lastQr v = None \/ lastQr v = Some "") /\
  (forall q at_, getQr toISOString v = (200, QrIssued q at_) ->
     q <> "" /\ lastQr v = Some q /\
     (exists t, lastQrAt v = Some t /\ at_ = Some (toISOString t)) /\
     statusLastQrAt (snd (getStatus toISOString cfg v)) = at_) /\
  (forall q now,
     q <> "" ->
     getQr toISOString (vars (run (steps ++ [Qr q now])))
     = (200, QrIssued q (Some (toISOString now)))) /\
  (forall s, (forall q now, s <> Qr q now) ->
     getQr toISOString (vars (run (steps ++ [s]))) = getQr toISOString v).
Proof.
  cbv zeta. pose proof (qr_paired steps) as Hp. repeat split.
  - unfold getQr. destruct (lastQr (vars (run steps))) as [[|c q]|];
      cbn; intros E; try discriminate; auto.
  - unfold getQr. intros [E|E]; rewrite E; reflexivity.
  - revert H. unfold getQr.
    destruct (lastQr (vars (run steps))) as [[|c q']|]; cbn; intros E;
      inversion E. discriminate.
  - revert H. unfold getQr.
    destruct (lastQr (vars (run steps))) as [[|c q']|]; cbn; intros E;
      inversion E. reflexivity.
  - revert H. unfold getQr.
    destruct (lastQr (vars (run steps))) as [[|c q']|] eqn:Eq; cbn; intros E;
      inversion E.
    destruct (lastQrAt (vars (run steps))) as [t|] eqn:Et.
    + exists t. split; reflexivity.
    + exfalso. destruct Hp as [_ Hp]. specialize (Hp eq_refl). discriminate.
  - revert H. unfold getQr, getStatus.
    destruct (lastQr (vars (run steps))) as [[|c q']|]; cbn; intros E;
      inversion E. reflexivity.
  - intros q now Hq. rewrite run_snoc. cbn [step]. unfold onQr, getQr.
    destruct (run steps) as [vv r con arm next fl sl]. cbn.
    now rewrite (truthy_nonempty q Hq).
  - intros s Hs. rewrite run_snoc.
    destruct (step_keeps_qr (run steps) s Hs) as [E1 E2].
    unfold getQr. now rewrite E1, E2.
Qed.

Lemma qr_endpoint_witness :
  let iso (t : Z) := "t" ++ Str.ofZ t in
  getQr iso (vars (run [Qr "2@abc" 17%Z; Disconnected "NAVIGATION"]))
  = (200, QrIssued "2@abc" (Some "t17")).
Proof.
  intros iso.
  destruct (qr_endpoint iso Scripted.cfg57 [Qr "2@abc" 17%Z])
    as [_ [_ [_ Hkeep]]].
  change [Qr "2@abc" 17%Z; Disconnected "NAVIGATION"]
    with ([Qr "2@abc" 17%Z] ++ [Disconnected "NAVIGATION"])%list.
  rewrite (Hkeep (Disconnected "NAVIGATION")) by (intros q now; discriminate).
  destruct (qr_endpoint iso Scripted.cfg57 []) as [_ [_ [Hlast _]]].
  apply (Hlast "2@abc" 17%Z). discriminate.
Defined.

End SupervisionFacts.

(* ------------------------------------------------------------------ *)
(** ** Send attempts *)

Section SendAttempts.

Context {W : Type} `{Collaborators W}.

(** X17. A send is given up only after three [sendMessage] calls with the
    same chat and content, 500 and 1000 ms apart and with 2000 ms more
    before the error comes out: an entry [sent_with_warning], or [failed] by
    its send, stands for three transmissions attempted. *)
Theorem send_gives_up_after_three
    (media : option MessageMedia) (caption text : option string)
    (chatId : string) (s : St W) (err : Thrown) :
  fst (sendContent media caption text chatId s) = Throw err ->
  let s' := snd (sendContent media caption text chatId s) in
  exists content,
    content = match media with
              | Some m => MediaContent m caption
              | None => TextContent (match text with Some t => t | None => "" end)
              end /\
    callsOf (trace s')
    = (callsOf (trace s) ++ repeat (CallSendMessage chatId content) 3)%list /\
    sleepsOf (trace s') = (sleepsOf (trace s) ++ [500; 1000; 2000]%Z)%list.
Proof.
  unfold sendContent. intros E. cbv zeta.
  destruct media as [m|].
  - eexists. split; [reflexivity|]. unfold withRetries in *.
    destruct (retried_call_counts
                (CallSendMessage chatId (MediaContent m caption))
                (client_sendMessage chatId (MediaContent m caption))
                "sendMessage(media)" MAX_RETRIES 0 ThrownUndefined s)
      as [k [Hc Hr]].
    cbv zeta in Hc, Hr. rewrite E in Hr. destruct Hr as [Hk Hs]. subst k.
    split; [exact Hc | exact Hs].
  - destruct text as [t|]; [|discriminate E].
    destruct (Str.truthy t); [|discriminate E].
    eexists. split; [reflexivity|]. unfold withRetries in *.
    destruct (retried_call_counts
                (CallSendMessage chatId (TextContent t))
                (client_sendMessage chatId (TextContent t))
                "sendMessage(text)" MAX_RETRIES 0 ThrownUndefined s)
      as [k [Hc Hr]].
    cbv zeta in Hc, Hr. rewrite E in Hr. destruct Hr as [Hk Hs]. subst k.
    split; [exact Hc | exact Hs].
Qed.

End SendAttempts.

Lemma send_gives_up_after_three_witness :
  let defect := newError "Evaluation failed: serialize" in
  let s := Scripted.start true
             (Scripted.script [] [] [] []
                [Throw defect; Throw defect; Throw defect; Ret tt]) in
  let s' := snd (sendContent None None (Some "hi") "573001234567@c.us" s) in
  callsOf (trace s')
  = repeat (CallSendMessage "573001234567@c.us" (TextContent "hi")) 3 /\
  Scripted.sendQ (world s') = [Ret tt].
Proof.
  intros defect s s'.
  destruct (send_gives_up_after_three None None (Some "hi")
              "573001234567@c.us" s defect)
    as [content [Ec [Hc _]]]; [vm_compute; reflexivity|].
  subst content. split; [exact Hc | vm_compute; reflexivity].
Defined.

Lemma buildMediaFromUrl_error_witness :
  let url := "https://cdn.example.com/promo.jpg" in
  let s := Scripted.start true
             (Scripted.script [Throw (newError "timeout of 20000ms exceeded")]
                              [Throw (newError "Request failed with status code 404")]
                              [] [] []) in
  exists e1 w1 e2,
    MessageMedia_fromUrl url true FROM_URL_TIMEOUT_MS (world s) = (Throw e1, w1) /\
    fst (axios_get url (axiosConfig Scripted.cfg57) w1) = Throw e2 /\
    newError "No se pudo descargar la imagen: Request failed with status code 404"
    = ErrorObj "Error" ("No se pudo descargar la imagen: " ++ errText e2) /\
    callsOf (trace (snd (buildMediaFromUrl Scripted.cfg57 url s)))
    = (callsOf (trace s)
         ++ [CallFromUrl url true FROM_URL_TIMEOUT_MS;
             CallAxiosGet url (axiosConfig Scripted.cfg57)])%list.
Proof.
  intros url s.
  apply (buildMediaFromUrl_error Scripted.cfg57 url s).
  vm_compute. reflexivity.
Defined.

Lemma invalid_batch_is_free_witness :
  let s := Scripted.start true Scripted.idle in
  let s' := snd (dispatchLoop Scripted.cfg57 None None (Some "hi")
                              ["abc"; "12-34-56"] s) in
  trace s' = [] /\
  results s' = [failedEntry "abc" "Número inválido";
                failedEntry "12-34-56" "Número inválido"].
Proof.
  intros s s'.
  assert (Hbad : Forall (fun raw => normalizeNumber
                                      (DEFAULT_COUNTRY_CODE Scripted.cfg57) raw
                                    = None) ["abc"; "12-34-56"])
    by (repeat constructor).
  destruct (invalid_batch_is_free Scripted.cfg57 None None (Some "hi")
              ["abc"; "12-34-56"] Hbad s) as [[_ Ht] Hr].
  split; [exact Ht | exact Hr].
Defined.

(** The pre-warm throws, the send goes through. *)
Lemma prewarm_is_best_effort_witness :
  let s := Scripted.start true
             (Scripted.script [] [] [Scripted.account "573001234567"]
                              [Throw Scripted.boom] [Ret tt]) in
  results (snd (processRecipient Scripted.cfg57 None None (Some "hi")
                                 "3001234567" s))
  = [sentEntry "573001234567"].
Proof.
  intros s.
  apply (prewarm_is_best_effort Scripted.cfg57 None None (Some "hi")
           "3001234567" "573001234567" {| _serialized := "573001234567@c.us" |} s);
    vm_compute; reflexivity.
Defined.
